(** * Host-side forward entry point of the fused attention extension

    A shallow embedding of [csrc/stream_attn/fmha_api.cpp]: the parameter
    setup [set_params] and the forward entry point [mha_fwd].

    - C++ [int], [int64_t], [size_t], [uint32_t], [uint16_t] values are
      integers of [Z] with the conversions written out.
    - C++ [float] and [double] values are [spec_float]s, computed with the
      IEEE-754 operations of [SpecFloat] at precision 24 (binary32) and
      53 (binary64).
    - Device memory, random generators and the log of the calls into the
      runtime form an explicit [World] threaded through a state-and-error
      monad; a failed [TORCH_CHECK] is an error result. *)

From Stdlib Require Import ZArith QArith Qround Qpower Lia Bool List.
From Stdlib Require Import Floats.SpecFloat.
From stdpp Require Import base list functions.
Import ListNotations.
Open Scope Z_scope.

(** ** Machine integers *)

Module MachineInt.

(** Two's-complement reading of the low [w] bits of [x]. *)
Definition wrap_signed (w : Z) (x : Z) : Z :=
  (x + 2 ^ (w - 1)) mod 2 ^ w - 2 ^ (w - 1).

(** Unsigned reading of the low [w] bits of [x]. *)
Definition wrap_unsigned (w : Z) (x : Z) : Z := x mod 2 ^ w.

Definition INT_MAX : Z := 2147483647.
Definition INT_MIN : Z := -2147483648.

Definition is_int (x : Z) : Prop := INT_MIN <= x <= INT_MAX.

(** Conversion to [int] (also the result of an [int] operation). *)
Definition to_int (x : Z) : Z := wrap_signed 32 x.
Definition to_size_t (x : Z) : Z := wrap_unsigned 64 x.
Definition to_uint32_t (x : Z) : Z := wrap_unsigned 32 x.
Definition to_uint16_t (x : Z) : Z := wrap_unsigned 16 x.

Definition int_add (a b : Z) : Z := to_int (a + b).
Definition int_sub (a b : Z) : Z := to_int (a - b).
Definition int_mul (a b : Z) : Z := to_int (a * b).
(** C++ integer division truncates towards zero. *)
Definition int_div (a b : Z) : Z := to_int (Z.quot a b).

Definition size_t_mul (a b : Z) : Z := to_size_t (a * b).

End MachineInt.
Import MachineInt.

(** ** Tile planner

    Lines 150-160 of the source, the part of [mha_fwd] that picks the tile
    width and the working sequence length. *)

Module Planner.

(** [int base_N = head_size == 128 ? 128 : 256;] *)
Definition base_N (head_size : Z) : Z :=
  if head_size =? 128 then 128 else 256.

(** [int seq_len = 512; if (max_seq_len <= 128) ... else ...] *)
Definition seq_len (max_seq_len base_N : Z) : Z :=
  if max_seq_len <=? 128 then 128
  else if max_seq_len <=? 256 then 256
  else int_mul (int_div (int_sub (int_add max_seq_len base_N) 1) base_N) base_N.

(** [bool loop = seq_len > base_N;] *)
Definition loop (seq_len base_N : Z) : bool := base_N <? seq_len.

(** The planning rule in the words of the design: the tile width, the
    padded length by exact (rational) ceiling, and the looping flag. *)
Definition base_tile_width (head_dim : Z) : Z :=
  if head_dim =? 128 then 128 else 256.

Definition padded_seq_len (max_sequence_length width : Z) : Z :=
  if max_sequence_length <=? 128 then 128
  else if max_sequence_length <=? 256 then 256
  else (Qceiling (inject_Z max_sequence_length / inject_Z width) * width)%Z.

Definition looped (padded width : Z) : bool := width <? padded.

Definition supported_head_size (head_size : Z) : Prop :=
  head_size = 16 \/ head_size = 32 \/ head_size = 64 \/ head_size = 128.

(** The code agrees with the planning rule at the given arguments. *)
Definition plan_agrees (max_seq_len head_size : Z) : Prop :=
  base_N head_size = base_tile_width head_size
  /\ seq_len max_seq_len (base_N head_size)
     = padded_seq_len max_seq_len (base_tile_width head_size)
  /\ loop (seq_len max_seq_len (base_N head_size)) (base_N head_size)
     = looped (padded_seq_len max_seq_len (base_tile_width head_size))
              (base_tile_width head_size).

End Planner.

(** ** Floating point

    [float] is IEEE binary32 and [double] is binary64; both are carried by
    [spec_float] and computed with the operations of [SpecFloat]. *)

Module Float.

Definition float_sub : spec_float -> spec_float -> spec_float := SFsub 24 128.
Definition float_div : spec_float -> spec_float -> spec_float := SFdiv 24 128.
Definition float_ltb : spec_float -> spec_float -> bool := SFltb.
Definition double_mul : spec_float -> spec_float -> spec_float := SFmul 53 1024.
Definition double_ltb : spec_float -> spec_float -> bool := SFltb.

(** Literals: the nearest representable value of an integer constant. *)
Definition float_of_Z (z : Z) : spec_float := binary_normalize 24 128 z 0 false.
Definition double_of_Z (z : Z) : spec_float := binary_normalize 53 1024 z 0 false.

(** Implicit promotion [float -> double]: same value, binary64 layout. *)
Definition float_to_double (x : spec_float) : spec_float :=
  match x with
  | S754_finite s m e => binary_round 53 1024 s m e
  | _ => x
  end.

(** Largest integer not above a finite value. *)
Definition Zfloor (x : spec_float) : Z :=
  match x with
  | S754_finite s m e => Z.shiftl (cond_Zopp s (Zpos m)) e
  | _ => 0
  end.

(** Integer part of a finite value, rounding towards zero. *)
Definition Ztrunc (x : spec_float) : Z :=
  match x with
  | S754_finite s m e => cond_Zopp s (Z.shiftl (Zpos m) e)
  | _ => 0
  end.

(** [std::floor] on [double]. *)
Definition std_floor (x : spec_float) : spec_float :=
  match x with
  | S754_finite s m e => binary_normalize 53 1024 (Zfloor x) 0 s
  | _ => x
  end.

(** [uint32_t(x)] and [uint16_t(x)] for a [double] [x]: the fractional
    part is discarded.  The conversion is only defined by the language
    when the integer part fits the target; outside that range (and for
    infinities and NaN, read as 0) the model keeps the low bits. *)
Definition double_to_uint32_t (x : spec_float) : Z := to_uint32_t (Ztrunc x).
Definition double_to_uint16_t (x : spec_float) : Z := to_uint16_t (Ztrunc x).

(** [-std::numeric_limits<float>::infinity()] *)
Definition neg_infinity : spec_float := S754_infinity true.

(** Exact rational value of a finite float (0 for the others). *)
Definition to_Q (x : spec_float) : Q :=
  match x with
  | S754_finite s m e => (inject_Z (cond_Zopp s (Zpos m)) * Qpower 2 e)%Q
  | _ => 0%Q
  end.

Definition is_float (x : spec_float) : Prop := valid_binary 24 128 x = true.

End Float.
Import Float.

(** ** Tensors and device memory *)

Inductive ScalarType := kHalf | kBFloat16 | kFloat | kInt.

Record TensorOptions := {
  opt_dtype : ScalarType;
  opt_is_cuda : bool;
}.

(** [opts.dtype(t)] *)
Definition with_dtype (opts : TensorOptions) (t : ScalarType) : TensorOptions :=
  {| opt_dtype := t; opt_is_cuda := opt_is_cuda opts |}.

(** A device address is the index of a buffer in [Memory]. *)
Definition ptr := nat.

(** A tensor is a handle: several handles may name one buffer. *)
Record Tensor := {
  sizes : list Z;
  options : TensorOptions;
  is_contiguous : bool;
  data_ptr : ptr;
}.

Definition is_cuda (t : Tensor) : bool := opt_is_cuda (options t).
Definition dim (t : Tensor) : Z := Z.of_nat (length (sizes t)).
Definition numel (t : Tensor) : Z := fold_right Z.mul 1 (sizes t).
(** [sizes[i]]; the rank is checked before any use. *)
Definition size_at (t : Tensor) (i : nat) : Z := nth i (sizes t) 0.

Inductive Contents :=
  | Uninitialized
  | Filled (v : spec_float)
  | Floats (l : list spec_float)
  | Ints (l : list Z).

Record Buffer := {
  buf_shape : list Z;
  buf_dtype : ScalarType;
  buf_data : Contents;
}.

Abbreviation Memory := (list Buffer).

Definition set_data (c : Contents) (b : Buffer) : Buffer :=
  {| buf_shape := buf_shape b; buf_dtype := buf_dtype b; buf_data := c |}.

(** The contents of the buffer at an address. *)
Definition contents_at (mem : Memory) (p : ptr) : option Contents :=
  buf_data <$> mem !! p.

(** ** Random generators *)

Definition Generator := nat.

Record CUDAGeneratorImpl := {
  seed_ : Z;
  philox_offset_per_thread_ : Z;
}.

Record PhiloxCudaState := {
  philox_seed : Z;
  philox_offset : Z;
}.

(** [at::cuda::detail::getDefaultCUDAGenerator()] *)
Definition getDefaultCUDAGenerator : Generator := 0%nat.

(** [at::get_generator_or_default] *)
Definition get_generator_or_default (gen_ : option Generator) (default : Generator)
  : Generator :=
  match gen_ with
  | Some g => g
  | None => default
  end.

(** ** Kernel parameters *)

(** Modelled from the spec: the enumeration [Data_type] is declared in a
    header that is not part of the tree; these are the two members the
    source names. *)
Inductive Data_type := DATA_TYPE_FP16 | DATA_TYPE_FP32.

(** Modelled from the spec: the axis names [TOTAL_DIM], [H_DIM],
    [THREE_DIM], [D_DIM] are constants of the absent header [fmha.h]; the
    packed buffer is shaped [total_tokens, num_heads, 3_or_4, head_dim]. *)
Definition TOTAL_DIM : nat := 0.
Definition H_DIM : nat := 1.
Definition THREE_DIM : nat := 2.
Definition D_DIM : nat := 3.

(** Modelled from the spec: the structure
    [Fused_multihead_attention_fprop_params] is declared in the absent
    header [fmha.h]; the record has the members that [set_params] and
    [mha_fwd] assign.  A [void*] is an optional address ([None] is
    [nullptr]); the encoded scales are 32-bit words. *)
Module Params.

Record Fused_multihead_attention_fprop_params := {
  qkv_ptr : option ptr;
  qkv_stride_in_elts : Z;
  qkv_stride_in_bytes : Z;
  o_ptr : option ptr;
  o2_ptr : option ptr;
  o_stride_in_elts : Z;
  o_stride_in_bytes : Z;
  do_ptr : option ptr;
  o_tmp_ptr : option ptr;
  o2_tmp_ptr : option ptr;
  cu_seqlens_ptr : option ptr;
  s_ptr : option ptr;
  s_stride_in_bytes : Z;
  softmax_lse_ptr : option ptr;
  dsoftmax_sum : option ptr;
  b : Z;
  h : Z;
  s : Z;
  d : Z;
  scale_bmm1f : spec_float;
  scale_bmm1 : Z;
  scale_softmax : Z;
  scale_bmm2 : Z;
  p_dropout : spec_float;
  p_dropout_in_uint : Z;
  p_dropout_in_uint16_t : Z;
  rp_dropout : spec_float;
  scale_dropout : Z;
  is_causal : bool;
  philox_args : PhiloxCudaState;
}.

End Params.
Abbreviation Fused_multihead_attention_fprop_params :=
  Params.Fused_multihead_attention_fprop_params.

(** [launch_params.params.philox_args = st] *)
Definition set_philox_args (st : PhiloxCudaState)
    (p : Fused_multihead_attention_fprop_params)
  : Fused_multihead_attention_fprop_params :=
  {| Params.qkv_ptr := Params.qkv_ptr p;
     Params.qkv_stride_in_elts := Params.qkv_stride_in_elts p;
     Params.qkv_stride_in_bytes := Params.qkv_stride_in_bytes p;
     Params.o_ptr := Params.o_ptr p;
     Params.o2_ptr := Params.o2_ptr p;
     Params.o_stride_in_elts := Params.o_stride_in_elts p;
     Params.o_stride_in_bytes := Params.o_stride_in_bytes p;
     Params.do_ptr := Params.do_ptr p;
     Params.o_tmp_ptr := Params.o_tmp_ptr p;
     Params.o2_tmp_ptr := Params.o2_tmp_ptr p;
     Params.cu_seqlens_ptr := Params.cu_seqlens_ptr p;
     Params.s_ptr := Params.s_ptr p;
     Params.s_stride_in_bytes := Params.s_stride_in_bytes p;
     Params.softmax_lse_ptr := Params.softmax_lse_ptr p;
     Params.dsoftmax_sum := Params.dsoftmax_sum p;
     Params.b := Params.b p;
     Params.h := Params.h p;
     Params.s := Params.s p;
     Params.d := Params.d p;
     Params.scale_bmm1f := Params.scale_bmm1f p;
     Params.scale_bmm1 := Params.scale_bmm1 p;
     Params.scale_softmax := Params.scale_softmax p;
     Params.scale_bmm2 := Params.scale_bmm2 p;
     Params.p_dropout := Params.p_dropout p;
     Params.p_dropout_in_uint := Params.p_dropout_in_uint p;
     Params.p_dropout_in_uint16_t := Params.p_dropout_in_uint16_t p;
     Params.rp_dropout := Params.rp_dropout p;
     Params.scale_dropout := Params.scale_dropout p;
     Params.is_causal := Params.is_causal p;
     Params.philox_args := st |}.

Record cudaDeviceProp := {
  major : Z;
  minor : Z;
}.

(** Modelled from the spec: the structure [Launch_params] is declared in
    the absent header [fmha.h]; the record has the constructor arguments
    of line 127 and the two members the source reads and writes. *)
Module Launch.

Record Launch_params := {
  elts_per_thread : Z;
  props : cudaDeviceProp;
  stream : Z;
  is_dropout : bool;
  return_softmax : bool;
  params : Fused_multihead_attention_fprop_params;
}.

End Launch.
Abbreviation Launch_params := Launch.Launch_params.

(** The constructor of line 127; no draw budget is known yet. *)
Definition new_Launch_params (props : cudaDeviceProp) (stream : Z)
    (is_dropout return_softmax : bool)
    (p : Fused_multihead_attention_fprop_params) : Launch_params :=
  {| Launch.elts_per_thread := 0; Launch.props := props; Launch.stream := stream;
     Launch.is_dropout := is_dropout; Launch.return_softmax := return_softmax;
     Launch.params := p |}.

(** [launch_params.params = p] *)
Definition set_launch_params (p : Fused_multihead_attention_fprop_params)
    (lp : Launch_params) : Launch_params :=
  {| Launch.elts_per_thread := Launch.elts_per_thread lp;
     Launch.props := Launch.props lp; Launch.stream := Launch.stream lp;
     Launch.is_dropout := Launch.is_dropout lp;
     Launch.return_softmax := Launch.return_softmax lp; Launch.params := p |}.

(** ** The world of a call *)

(** Calls into the runtime, in the order they are made. *)
Inductive Event :=
  | EvEmpty (p : ptr) (shape : list Z) (opts : TensorOptions)
  | EvZero (p : ptr)
  | EvFill (p : ptr) (v : spec_float)
  | EvLock (g : Generator)
  | EvPhilox (g : Generator) (increment : Z)
  | EvUnlock (g : Generator)
  | EvKernel (configure : bool) (lp : Launch_params) (mem : Memory).

Record World := {
  device : cudaDeviceProp;
  stream : Z;
  memory : Memory;
  generators : Generator -> CUDAGeneratorImpl;
  log : list Event;
}.

Definition set_memory (m : Memory) (w : World) : World :=
  {| device := device w; stream := stream w; memory := m;
     generators := generators w; log := log w |}.

Definition set_generators (g : Generator -> CUDAGeneratorImpl) (w : World) : World :=
  {| device := device w; stream := stream w; memory := memory w;
     generators := g; log := log w |}.

Definition emit (e : Event) (w : World) : World :=
  {| device := device w; stream := stream w; memory := memory w;
     generators := generators w; log := log w ++ [e] |}.

(** ** Failures

    Every [TORCH_CHECK] of the source raises the same exception type; the
    constructors name the check that failed. *)
Inductive Error :=
  | DeviceCapabilityUnsupported   (* dprops->major == 8 && dprops->minor >= 0 *)
  | QkvNotOnDevice                (* qkvv.is_cuda() *)
  | CuSeqlensNotOnDevice          (* cu_seqlens.is_cuda() *)
  | QkvNotContiguous              (* qkvv.is_contiguous() *)
  | CuSeqlensNotContiguous        (* cu_seqlens.is_contiguous() *)
  | CuSeqlensBadRank              (* cu_seqlens.dim() == 1 *)
  | QkvBadRank                    (* qkvv.dim() == 4 *)
  | PackedCountMismatch           (* sizes[THREE_DIM] == 4 *)
  | InvalidBatchLayout            (* batch_size > 0 *)
  | UnsupportedHeadDim            (* head_size == 16 || ... || head_size == 128 *)
  | InvalidDropoutProbability.    (* p_dropout < 1.f *)

(** ** State-and-error monad *)

Definition M (A : Type) : Type := World -> (Error + A) * World.

#[global] Instance M_ret : MRet M := fun A x w => (inr x, w).

#[global] Instance M_bind : MBind M := fun A B f m w =>
  match m w with
  | (inl e, w') => (inl e, w')
  | (inr x, w') => f x w'
  end.

#[global] Instance M_fmap : FMap M := fun A B f m w =>
  match m w with
  | (inl e, w') => (inl e, w')
  | (inr x, w') => (inr (f x), w')
  end.

(** [TORCH_CHECK(cond)] *)
Definition TORCH_CHECK (cond : bool) (e : Error) : M unit :=
  fun w => if cond then (inr tt, w) else (inl e, w).

Definition lift_result {A : Type} (r : Error + A) : M A := fun w => (r, w).

(** [at::cuda::getCurrentDeviceProperties()] *)
Definition getCurrentDeviceProperties : M cudaDeviceProp :=
  fun w => (inr (device w), w).

(** [at::cuda::getCurrentCUDAStream().stream()] *)
Definition getCurrentCUDAStream : M Z :=
  fun w => (inr (stream w), w).

(** [torch::empty(shape, opts)]: a fresh, uninitialised buffer. *)
Definition torch_empty (shape : list Z) (opts : TensorOptions) : M Tensor :=
  fun w =>
    let p := length (memory w) in
    let buf := {| buf_shape := shape; buf_dtype := opt_dtype opts;
                  buf_data := Uninitialized |} in
    (inr {| sizes := shape; options := opts; is_contiguous := true; data_ptr := p |},
     emit (EvEmpty p shape opts) (set_memory (memory w ++ [buf]) w)).

(** [t.fill_(v)] *)
Definition fill_ (t : Tensor) (v : spec_float) : M unit :=
  fun w =>
    (inr tt,
     emit (EvFill (data_ptr t) v)
       (set_memory (alter (set_data (Filled v)) (data_ptr t) (memory w)) w)).

(** [t.zero_()] *)
Definition zero_ (t : Tensor) : M unit :=
  fun w =>
    (inr tt,
     emit (EvZero (data_ptr t))
       (set_memory (alter (set_data (Filled (S754_zero false))) (data_ptr t) (memory w)) w)).

(** [std::lock_guard<std::mutex> lock(gen->mutex_)]: taken on entry to the
    block and released when the block is left. *)
Definition lock_guard_acquire (g : Generator) : M unit :=
  fun w => (inr tt, emit (EvLock g) w).
Definition lock_guard_release (g : Generator) : M unit :=
  fun w => (inr tt, emit (EvUnlock g) w).

Section Api.

(** Functions of the absent headers and of the runtime, taken as
    parameters: the byte size of a count of elements, the encoding of a
    scale, the kernel driver, and the generator's counter reservation. *)
Context (get_size_in_bytes : Z -> Data_type -> Z).
Context (set_alpha : spec_float -> Data_type -> Z).
Context (fmha_kernel : Launch_params -> bool -> Memory -> Launch_params * Memory).
Context (philox_cuda_state_impl :
           CUDAGeneratorImpl -> Z -> PhiloxCudaState * CUDAGeneratorImpl).

(** [gen->philox_cuda_state(increment)] *)
Definition philox_cuda_state (g : Generator) (increment : Z) : M PhiloxCudaState :=
  fun w =>
    let r := philox_cuda_state_impl (generators w g) increment in
    (inr (fst r),
     emit (EvPhilox g increment) (set_generators (<[g := snd r]> (generators w)) w)).

(** [run_fmha_fp16_sm80(launch_params, configure)] *)
Definition run_fmha_fp16_sm80 (lp : Launch_params) (configure : bool) : M Launch_params :=
  fun w =>
    let r := fmha_kernel lp configure (memory w) in
    (inr (fst r), set_memory (snd r) (emit (EvKernel configure lp (memory w)) w)).

(** The keep probability and the two integer thresholds, lines 100-104. *)
Definition keep_probability (p_dropout : spec_float) : spec_float :=
  float_sub (float_of_Z 1) p_dropout.

Definition threshold_uint (keep : spec_float) : Z :=
  double_to_uint32_t
    (std_floor (double_mul (float_to_double keep) (double_of_Z 4294967295))).

Definition threshold_uint16_t (keep : spec_float) : Z :=
  double_to_uint16_t
    (std_floor (double_mul (float_to_double keep) (double_of_Z 65535))).

Definition set_params
    (b s h d : Z)
    (qkv_packed_d cu_seqlens_d o_packed_d o_tmp_d do_packed_d s_d
     softmax_lse_d dsoftmax_sum_d : option ptr)
    (p_dropout softmax_scale : spec_float) (is_causal : bool)
    (o2_tmp_d o2_packed_d : option ptr)
  : Error + Fused_multihead_attention_fprop_params :=
  let acc_type := DATA_TYPE_FP32 in
  let data_type := DATA_TYPE_FP16 in
  let scale_bmm1 := softmax_scale in
  let scale_softmax := float_of_Z 1 in
  let scale_bmm2 := float_of_Z 1 in
  let keep := keep_probability p_dropout in
  let rp := float_div (float_of_Z 1) keep in
  if float_ltb p_dropout (float_of_Z 1) then
    inr {| Params.qkv_ptr := qkv_packed_d;
           Params.qkv_stride_in_elts := size_t_mul (size_t_mul h 4) d;
           Params.qkv_stride_in_bytes :=
             get_size_in_bytes (size_t_mul (size_t_mul h 4) d) data_type;
           Params.o_ptr := o_packed_d;
           Params.o2_ptr := o2_packed_d;
           Params.o_stride_in_elts := size_t_mul h d;
           Params.o_stride_in_bytes := get_size_in_bytes (size_t_mul h d) data_type;
           Params.do_ptr := do_packed_d;
           Params.o_tmp_ptr := o_tmp_d;
           Params.o2_tmp_ptr := o2_tmp_d;
           Params.cu_seqlens_ptr := cu_seqlens_d;
           Params.s_ptr := s_d;
           Params.s_stride_in_bytes :=
             get_size_in_bytes (size_t_mul (size_t_mul b h) s) data_type;
           Params.softmax_lse_ptr := softmax_lse_d;
           Params.dsoftmax_sum := dsoftmax_sum_d;
           Params.b := b; Params.h := h;
           Params.s := s; Params.d := d;
           Params.scale_bmm1f := scale_bmm1;
           Params.scale_bmm1 := set_alpha scale_bmm1 data_type;
           Params.scale_softmax := set_alpha scale_softmax acc_type;
           Params.scale_bmm2 := set_alpha scale_bmm2 data_type;
           Params.p_dropout := keep;
           Params.p_dropout_in_uint := threshold_uint keep;
           Params.p_dropout_in_uint16_t := threshold_uint16_t keep;
           Params.rp_dropout := rp;
           Params.scale_dropout := set_alpha rp data_type;
           Params.is_causal := is_causal;
           Params.philox_args := {| philox_seed := 0; philox_offset := 0 |} |}
  else inl InvalidDropoutProbability.

(** Stands for the member [launch_params.params] between the
    construction of [launch_params] and the call of [set_params], which
    resets every member ([memset]) before anything reads it. *)
Definition zero_params : Fused_multihead_attention_fprop_params :=
  {| Params.qkv_ptr := None; Params.qkv_stride_in_elts := 0;
     Params.qkv_stride_in_bytes := 0; Params.o_ptr := None;
     Params.o2_ptr := None; Params.o_stride_in_elts := 0;
     Params.o_stride_in_bytes := 0; Params.do_ptr := None;
     Params.o_tmp_ptr := None; Params.o2_tmp_ptr := None;
     Params.cu_seqlens_ptr := None; Params.s_ptr := None;
     Params.s_stride_in_bytes := 0; Params.softmax_lse_ptr := None;
     Params.dsoftmax_sum := None;
     Params.b := 0; Params.h := 0; Params.s := 0; Params.d := 0;
     Params.scale_bmm1f := S754_zero false; Params.scale_bmm1 := 0;
     Params.scale_softmax := 0; Params.scale_bmm2 := 0;
     Params.p_dropout := S754_zero false; Params.p_dropout_in_uint := 0;
     Params.p_dropout_in_uint16_t := 0; Params.rp_dropout := S754_zero false;
     Params.scale_dropout := 0; Params.is_causal := false;
     Params.philox_args := {| philox_seed := 0; philox_offset := 0 |} |}.

(** [t.data_ptr()] of a tensor that is only defined on some paths. *)
Definition data_ptr_opt (t : option Tensor) : option ptr := data_ptr <$> t.

Definition zero_opt (t : option Tensor) : M unit :=
  match t with
  | Some t => zero_ t
  | None => mret tt
  end.

(** [bool is_dropout = p_dropout > 0.0;] *)
Definition dropout_enabled (p_dropout : spec_float) : bool :=
  double_ltb (double_of_Z 0) (float_to_double p_dropout).

(** [bool ok = head_size == 16 || head_size == 32 || ...] *)
Definition head_size_ok (head_size : Z) : bool :=
  (head_size =? 16) || (head_size =? 32) || (head_size =? 64) || (head_size =? 128).

Definition mha_fwd
    (qkvv cu_seqlens : Tensor) (p_dropout : spec_float) (max_seq_len : Z)
    (softmax_scale : spec_float) (zero_tensors is_causal return_softmax : bool)
    (gen_ : option Generator)
  : M (list Tensor) :=
  dprops ← getCurrentDeviceProperties;
  TORCH_CHECK ((major dprops =? 8) && (0 <=? minor dprops))
    DeviceCapabilityUnsupported;;
  stream ← getCurrentCUDAStream;
  let is_dropout := dropout_enabled p_dropout in
  let launch_params :=
    new_Launch_params dprops stream is_dropout return_softmax zero_params in
  TORCH_CHECK (is_cuda qkvv) QkvNotOnDevice;;
  TORCH_CHECK (is_cuda cu_seqlens) CuSeqlensNotOnDevice;;
  TORCH_CHECK (is_contiguous qkvv) QkvNotContiguous;;
  TORCH_CHECK (is_contiguous cu_seqlens) CuSeqlensNotContiguous;;
  TORCH_CHECK (dim cu_seqlens =? 1) CuSeqlensBadRank;;
  TORCH_CHECK (dim qkvv =? 4) QkvBadRank;;
  TORCH_CHECK (size_at qkvv THREE_DIM =? 4) PackedCountMismatch;;
  let batch_size := to_int (numel cu_seqlens - 1) in
  let total := to_int (size_at qkvv TOTAL_DIM) in
  let num_heads := to_int (size_at qkvv H_DIM) in
  let head_size := to_int (size_at qkvv D_DIM) in
  TORCH_CHECK (0 <? batch_size) InvalidBatchLayout;;
  TORCH_CHECK (head_size_ok head_size) UnsupportedHeadDim;;
  let base_N := Planner.base_N head_size in
  let seq_len := Planner.seq_len max_seq_len base_N in
  let loop := Planner.loop seq_len base_N in
  let opts := options qkvv in
  ctx ← torch_empty [total; num_heads; head_size] opts;
  ctx2 ← torch_empty [total; num_heads; head_size] opts;
  o_tmp ← (if loop
           then Some <$> torch_empty [total; num_heads; head_size] (with_dtype opts kFloat)
           else mret None);
  o2_tmp ← (if loop
            then Some <$> torch_empty [total; num_heads; head_size] (with_dtype opts kFloat)
            else mret None);
  softmax_lse ← torch_empty [batch_size; num_heads; seq_len] (with_dtype opts kFloat);
  s ← (if return_softmax
       then Some <$> torch_empty [batch_size; num_heads; seq_len; seq_len] opts
       else mret None);
  (if zero_tensors then
     zero_ ctx;;
     zero_ ctx2;;
     fill_ softmax_lse neg_infinity;;
     (if loop then zero_opt o_tmp else mret tt);;
     (if loop then zero_opt o2_tmp else mret tt);;
     (if return_softmax then zero_opt s else mret tt)
   else mret tt);;
  let gen := get_generator_or_default gen_ getDefaultCUDAGenerator in
  prm ← lift_result
    (set_params (to_size_t batch_size) (to_size_t seq_len) (to_size_t num_heads)
       (to_size_t head_size)
       (Some (data_ptr qkvv))
       (Some (data_ptr cu_seqlens))
       (Some (data_ptr ctx))
       (if loop then data_ptr_opt o_tmp else None)
       None
       (if return_softmax then data_ptr_opt s else None)
       (Some (data_ptr softmax_lse))
       None
       p_dropout
       softmax_scale
       is_causal
       (if loop then data_ptr_opt o2_tmp else None)
       (Some (data_ptr ctx2)));
  let launch_params := set_launch_params prm launch_params in
  launch_params ← run_fmha_fp16_sm80 launch_params true;
  let counter_offset := Launch.elts_per_thread launch_params in
  launch_params ←
    (if is_dropout then
       lock_guard_acquire gen;;
       st ← philox_cuda_state gen counter_offset;
       let launch_params :=
         set_launch_params (set_philox_args st (Launch.params launch_params))
           launch_params in
       lock_guard_release gen;;
       mret launch_params
     else mret launch_params);
  _ ← run_fmha_fp16_sm80 launch_params false;
  mret ([ctx; ctx2; softmax_lse]
          ++ (if return_softmax then option_list s else [])).

End Api.

(** * Vocabulary for the properties *)

(** ** Views of the log *)

(** The driver and generator calls, the generator calls alone, the
    pre-fills, and the shapes of the allocations. *)
Definition is_driver_or_rng (e : Event) : bool :=
  match e with
  | EvKernel _ _ _ | EvLock _ | EvPhilox _ _ | EvUnlock _ => true
  | _ => false
  end.

Definition is_rng (e : Event) : bool :=
  match e with
  | EvLock _ | EvPhilox _ _ | EvUnlock _ => true
  | _ => false
  end.

Definition is_reservation (e : Event) : bool :=
  match e with
  | EvPhilox _ _ => true
  | _ => false
  end.

Definition is_prefill (e : Event) : bool :=
  match e with
  | EvZero _ | EvFill _ _ => true
  | _ => false
  end.

Definition alloc_shape (e : Event) : option (list Z) :=
  match e with
  | EvEmpty _ shape _ => Some shape
  | _ => None
  end.

(** What a call appended to the log. *)
Definition new_events (w w' : World) : list Event :=
  drop (length (log w)) (log w').

(** The contents behind a possibly null address. *)
Definition contents_of (mem : Memory) (p : option ptr) : option Contents :=
  p ≫= contents_at mem.

Definition zero_contents : Contents := Filled (S754_zero false).

(** The first check of a list that fails. *)
Fixpoint first_failure (cs : list (bool * Error)) : option Error :=
  match cs with
  | [] => None
  | (true, _) :: cs => first_failure cs
  | (false, e) :: _ => Some e
  end.

(** ** Offsets, as the design describes them *)

(** Non-decreasing offsets, and the token count they declare. *)
Fixpoint offsets_monotone (l : list Z) : Prop :=
  match l with
  | [] => True
  | x :: l' =>
      match l' with
      | [] => True
      | y :: _ => x <= y /\ offsets_monotone l'
      end
  end.

Definition declared_total (l : list Z) : Z := List.last l 0.

(** ** A call, written out *)

Section Call.

Context (get_size_in_bytes : Z -> Data_type -> Z).
Context (set_alpha : spec_float -> Data_type -> Z).
Context (fmha_kernel : Launch_params -> bool -> Memory -> Launch_params * Memory).
Context (philox_cuda_state_impl :
           CUDAGeneratorImpl -> Z -> PhiloxCudaState * CUDAGeneratorImpl).

Context (qkvv cu_seqlens : Tensor) (p_dropout : spec_float) (max_seq_len : Z)
        (softmax_scale : spec_float) (zero_tensors is_causal return_softmax : bool)
        (gen_ : option Generator).

(** The local variables of [mha_fwd]. *)
Definition batch_size : Z := to_int (numel cu_seqlens - 1).
Definition total : Z := to_int (size_at qkvv TOTAL_DIM).
Definition num_heads : Z := to_int (size_at qkvv H_DIM).
Definition head_size : Z := to_int (size_at qkvv D_DIM).
Definition seq_len : Z := Planner.seq_len max_seq_len (Planner.base_N head_size).
Definition loop : bool := Planner.loop seq_len (Planner.base_N head_size).
Definition gen : Generator := get_generator_or_default gen_ getDefaultCUDAGenerator.

(** The checks in source order, each with the failure it raises; the last
    one is made inside [set_params]. *)
Definition checks (w : World) : list (bool * Error) :=
  [ ((major (device w) =? 8) && (0 <=? minor (device w)), DeviceCapabilityUnsupported);
    (is_cuda qkvv, QkvNotOnDevice);
    (is_cuda cu_seqlens, CuSeqlensNotOnDevice);
    (is_contiguous qkvv, QkvNotContiguous);
    (is_contiguous cu_seqlens, CuSeqlensNotContiguous);
    (dim cu_seqlens =? 1, CuSeqlensBadRank);
    (dim qkvv =? 4, QkvBadRank);
    (size_at qkvv THREE_DIM =? 4, PackedCountMismatch);
    (0 <? batch_size, InvalidBatchLayout);
    (head_size_ok head_size, UnsupportedHeadDim);
    (float_ltb p_dropout (float_of_Z 1), InvalidDropoutProbability) ].

Definition early_checks (w : World) : list (bool * Error) := take 10 (checks w).

(** Everything checked before the packed-vector count. *)
Definition passes_tensor_checks (w : World) : Prop :=
  (major (device w) = 8 /\ 0 <= minor (device w))
  /\ is_cuda qkvv = true /\ is_cuda cu_seqlens = true
  /\ is_contiguous qkvv = true /\ is_contiguous cu_seqlens = true
  /\ dim cu_seqlens = 1 /\ dim qkvv = 4.

Section Run.
Variable w : World.

Definition p0 : ptr := length (memory w).
Definition opts : TensorOptions := options qkvv.
Definition opts_float : TensorOptions := with_dtype (options qkvv) kFloat.
Definition shape_ctx : list Z := [total; num_heads; head_size].
Definition shape_lse : list Z := [batch_size; num_heads; seq_len].
Definition shape_s : list Z := [batch_size; num_heads; seq_len; seq_len].

Definition tensor (shape : list Z) (o : TensorOptions) (p : ptr) : Tensor :=
  {| sizes := shape; options := o; is_contiguous := true; data_ptr := p |}.
Definition buffer (shape : list Z) (o : TensorOptions) (c : Contents) : Buffer :=
  {| buf_shape := shape; buf_dtype := opt_dtype o; buf_data := c |}.

(** Addresses of the new buffers, in allocation order. *)
Definition ptr_ctx : ptr := p0.
Definition ptr_ctx2 : ptr := (p0 + 1)%nat.
Definition ptr_o_tmp : ptr := (p0 + 2)%nat.
Definition ptr_o2_tmp : ptr := (p0 + 3)%nat.
Definition ptr_lse : ptr := if loop then (p0 + 4)%nat else (p0 + 2)%nat.
Definition ptr_s : ptr := if loop then (p0 + 5)%nat else (p0 + 3)%nat.

(** The new buffers, holding [c] (outputs, scratch, diagnostics) and
    [c_lse] (normalizer). *)
Definition new_buffers (c c_lse : Contents) : list Buffer :=
  [buffer shape_ctx opts c; buffer shape_ctx opts c]
  ++ (if loop then [buffer shape_ctx opts_float c; buffer shape_ctx opts_float c]
      else [])
  ++ [buffer shape_lse opts_float c_lse]
  ++ (if return_softmax then [buffer shape_s opts c] else []).

Definition alloc_events : list Event :=
  [EvEmpty ptr_ctx shape_ctx opts; EvEmpty ptr_ctx2 shape_ctx opts]
  ++ (if loop then [EvEmpty ptr_o_tmp shape_ctx opts_float;
                    EvEmpty ptr_o2_tmp shape_ctx opts_float]
      else [])
  ++ [EvEmpty ptr_lse shape_lse opts_float]
  ++ (if return_softmax then [EvEmpty ptr_s shape_s opts] else []).

Definition prefill_events : list Event :=
  if zero_tensors then
    [EvZero ptr_ctx; EvZero ptr_ctx2; EvFill ptr_lse neg_infinity]
    ++ (if loop then [EvZero ptr_o_tmp; EvZero ptr_o2_tmp] else [])
    ++ (if return_softmax then [EvZero ptr_s] else [])
  else [].

(** Device memory when [set_params] is reached. *)
Definition memory_prepared : Memory :=
  memory w
  ++ (if zero_tensors then new_buffers zero_contents (Filled neg_infinity)
      else new_buffers Uninitialized Uninitialized).

Definition world_prepared : World :=
  {| device := device w; stream := stream w; memory := memory_prepared;
     generators := generators w;
     log := log w ++ alloc_events ++ prefill_events |}.

Definition params_result : Error + Fused_multihead_attention_fprop_params :=
  set_params get_size_in_bytes set_alpha
    (to_size_t batch_size) (to_size_t seq_len) (to_size_t num_heads)
    (to_size_t head_size)
    (Some (data_ptr qkvv)) (Some (data_ptr cu_seqlens)) (Some ptr_ctx)
    (if loop then Some ptr_o_tmp else None)
    None
    (if return_softmax then Some ptr_s else None)
    (Some ptr_lse) None p_dropout softmax_scale is_causal
    (if loop then Some ptr_o2_tmp else None)
    (Some ptr_ctx2).

Definition params_set : Fused_multihead_attention_fprop_params :=
  match params_result with
  | inr prm => prm
  | inl _ => zero_params
  end.

(** The launch parameters at the configure call, what that call returns,
    the reservation, and the launch. *)
Definition lp_configure : Launch_params :=
  set_launch_params params_set
    (new_Launch_params (device w) (stream w) (dropout_enabled p_dropout)
       return_softmax zero_params).

Definition configured : Launch_params * Memory :=
  fmha_kernel lp_configure true memory_prepared.

Definition counter_offset : Z := Launch.elts_per_thread (fst configured).

Definition reserved : PhiloxCudaState * CUDAGeneratorImpl :=
  philox_cuda_state_impl (generators w gen) counter_offset.

Definition lp_launch : Launch_params :=
  if dropout_enabled p_dropout
  then set_launch_params
         (set_philox_args (fst reserved) (Launch.params (fst configured)))
         (fst configured)
  else fst configured.

Definition rng_events : list Event :=
  if dropout_enabled p_dropout
  then [EvLock gen; EvPhilox gen counter_offset; EvUnlock gen]
  else [].

Definition launched : Launch_params * Memory :=
  fmha_kernel lp_launch false (snd configured).

Definition world_final : World :=
  {| device := device w; stream := stream w; memory := snd launched;
     generators :=
       if dropout_enabled p_dropout
       then <[gen := snd reserved]> (generators w)
       else generators w;
     log := log w ++ alloc_events ++ prefill_events
            ++ [EvKernel true lp_configure memory_prepared]
            ++ rng_events
            ++ [EvKernel false lp_launch (snd configured)] |}.

Definition result : list Tensor :=
  [tensor shape_ctx opts ptr_ctx; tensor shape_ctx opts ptr_ctx2;
   tensor shape_lse opts_float ptr_lse]
  ++ (if return_softmax then [tensor shape_s opts ptr_s] else []).

End Run.

End Call.

(** ** A concrete setting

    One instance of the external functions and a small world, used to run
    the entry point on actual inputs. *)

Module Sample.

Definition get_size_in_bytes (n : Z) (t : Data_type) : Z :=
  match t with
  | DATA_TYPE_FP16 => 2 * n
  | DATA_TYPE_FP32 => 4 * n
  end.

Definition set_alpha (x : spec_float) (t : Data_type) : Z := Ztrunc x.

(** A driver that reports a budget of 64 draws when configuring and
    leaves memory alone. *)
Definition kernel (lp : Launch_params) (configure : bool) (mem : Memory)
  : Launch_params * Memory :=
  if configure
  then ({| Launch.elts_per_thread := 64; Launch.props := Launch.props lp;
           Launch.stream := Launch.stream lp;
           Launch.is_dropout := Launch.is_dropout lp;
           Launch.return_softmax := Launch.return_softmax lp;
           Launch.params := Launch.params lp |}, mem)
  else (lp, mem).

(** A generator that hands out its current offset and advances it. *)
Definition philox (g : CUDAGeneratorImpl) (increment : Z)
  : PhiloxCudaState * CUDAGeneratorImpl :=
  ({| philox_seed := seed_ g; philox_offset := philox_offset_per_thread_ g |},
   {| seed_ := seed_ g;
      philox_offset_per_thread_ := philox_offset_per_thread_ g + increment |}).

Definition half_opts : TensorOptions := {| opt_dtype := kHalf; opt_is_cuda := true |}.
Definition int_opts : TensorOptions := {| opt_dtype := kInt; opt_is_cuda := true |}.

(** Eight tokens, one head, head dimension 16. *)
Definition qkv : Tensor :=
  {| sizes := [8; 1; 4; 16]; options := half_opts; is_contiguous := true;
     data_ptr := 0%nat |}.

(** The same buffer viewed with three packed vectors per head. *)
Definition qkv_three : Tensor :=
  {| sizes := [8; 1; 3; 16]; options := half_opts; is_contiguous := true;
     data_ptr := 0%nat |}.

(** Offsets of two sequences of lengths 3 and 5. *)
Definition offsets : Tensor :=
  {| sizes := [3]; options := int_opts; is_contiguous := true; data_ptr := 1%nat |}.

(** A buffer of three offsets that decrease and end at 3, not at 8. *)
Definition offsets_unsorted : Tensor :=
  {| sizes := [3]; options := int_opts; is_contiguous := true; data_ptr := 2%nat |}.

Definition world (major_version : Z) : World :=
  {| device := {| major := major_version; minor := 0 |};
     stream := 0;
     memory :=
       [ {| buf_shape := [8; 1; 4; 16]; buf_dtype := kHalf; buf_data := Uninitialized |};
         {| buf_shape := [3]; buf_dtype := kInt; buf_data := Ints [0; 3; 8] |};
         {| buf_shape := [3]; buf_dtype := kInt; buf_data := Ints [0; 5; 3] |} ];
     generators := fun _ => {| seed_ := 42; philox_offset_per_thread_ := 0 |};
     log := [] |}.

Definition f_zero : spec_float := S754_zero false.
Definition f_half : spec_float := S754_finite false 8388608 (-24).
Definition f_one : spec_float := S754_finite false 8388608 (-23).

(** A call with the sample externals. *)
Definition fwd (qkvv cu_seqlens : Tensor) (p_dropout : spec_float) (max_seq_len : Z)
    (zero_tensors return_softmax : bool) (w : World)
  : (Error + list Tensor) * World :=
  mha_fwd get_size_in_bytes set_alpha kernel philox
    qkvv cu_seqlens p_dropout max_seq_len f_half zero_tensors false return_softmax
    None w.

(** A looping call with dropout, zero-filling and diagnostics, and the
    tensors it returns. *)
Definition run : (Error + list Tensor) * World :=
  fwd qkv offsets f_half 300 true true (world 8).

Definition run_result : list Tensor :=
  [ {| sizes := [8; 1; 16]; options := half_opts; is_contiguous := true;
       data_ptr := 3%nat |};
    {| sizes := [8; 1; 16]; options := half_opts; is_contiguous := true;
       data_ptr := 4%nat |};
    {| sizes := [2; 1; 512]; options := with_dtype half_opts kFloat;
       is_contiguous := true; data_ptr := 7%nat |};
    {| sizes := [2; 1; 512; 512]; options := half_opts; is_contiguous := true;
       data_ptr := 8%nat |} ].

End Sample.

(** ** Further vocabulary *)

(** The device requirement of line 124. *)
Definition device_ok (w : World) : Prop :=
  major (device w) = 8 /\ 0 <= minor (device w).

(** The element type and the address of an allocation. *)
Definition alloc_dtype (e : Event) : option ScalarType :=
  match e with
  | EvEmpty _ _ opts => Some (opt_dtype opts)
  | _ => None
  end.


(** Further inputs: a negative probability, three quarters, and a packed
    buffer of single-precision elements. *)
Module Edge.

Definition f_minus_half : spec_float := S754_finite true 8388608 (-24).
Definition f_three_quarters : spec_float := S754_finite false 12582912 (-24).

Definition qkv_float : Tensor :=
  {| sizes := [8; 1; 4; 16];
     options := {| opt_dtype := kFloat; opt_is_cuda := true |};
     is_contiguous := true; data_ptr := 0%nat |}.

End Edge.

(** [0.5f] *)
Definition float_half : spec_float := S754_finite false 8388608 (-24).
(** * Properties *)

(** ** Machine integers *)

Lemma to_int_id (x : Z) : is_int x -> to_int x = x.
Proof.
  unfold is_int, INT_MIN, INT_MAX, to_int, wrap_signed. intros Hx.
  change (2 ^ (32 - 1)) with 2147483648. change (2 ^ 32) with 4294967296.
  rewrite Z.mod_small by lia. lia.
Qed.

Lemma to_int_range (x : Z) : is_int (to_int x).
Proof.
  unfold is_int, INT_MIN, INT_MAX, to_int, wrap_signed.
  change (2 ^ (32 - 1)) with 2147483648. change (2 ^ 32) with 4294967296.
  pose proof (Z.mod_pos_bound (x + 2147483648) 4294967296). lia.
Qed.

(** ** Planner *)

Section PlannerFacts.
Import Planner.

Lemma Qceiling_ratio (a b : Z) :
  0 < b -> Qceiling (inject_Z a / inject_Z b) = - ((- a) / b).
Proof.
  intros Hb. destruct b as [|p|p]; try lia.
  unfold Qceiling, Qfloor, Qdiv, Qinv, Qmult, Qopp, inject_Z. simpl.
  rewrite Z.mul_1_r. reflexivity.
Qed.

Lemma base_N_cases (head_size : Z) :
  base_N head_size = 128 \/ base_N head_size = 256.
Proof. unfold base_N. destruct (head_size =? 128); auto. Qed.

(** Without overflow the rounding expression is the exact ceiling. *)
Lemma round_up_exact (m b : Z) :
  b = 128 \/ b = 256 -> 256 < m -> m + b <= INT_MAX ->
  int_mul (int_div (int_sub (int_add m b) 1) b) b = - ((- m) / b) * b.
Proof.
  intros Hb Hm Hmax. unfold INT_MAX in Hmax.
  unfold int_mul, int_div, int_sub, int_add.
  rewrite (to_int_id (m + b)) by (unfold is_int, INT_MIN, INT_MAX; lia).
  rewrite (to_int_id (m + b - 1)) by (unfold is_int, INT_MIN, INT_MAX; lia).
  rewrite Z.quot_div_nonneg by lia.
  assert (Hq : (m + b - 1) / b = - ((- m) / b))
    by (destruct Hb; subst b; Z.div_mod_to_equations; lia).
  assert (Hr : 0 <= (m + b - 1) / b * b <= INT_MAX)
    by (unfold INT_MAX; destruct Hb; subst b; Z.div_mod_to_equations; lia).
  rewrite (to_int_id ((m + b - 1) / b)).
  - rewrite to_int_id; [now rewrite Hq|].
    unfold is_int, INT_MIN, INT_MAX in *. lia.
  - unfold is_int, INT_MIN, INT_MAX in *.
    destruct Hb; subst b; Z.div_mod_to_equations; lia.
Qed.

(** C1 (as amended): for [max_seq_len >= 1] small enough that
    [max_seq_len + base_N] is still an [int] (no signed overflow in the
    rounding expression), and a supported head size, the planner picks tile width 128 for head size 128 and 256
    otherwise, pads the length to 128, to 256, or to the next multiple
    of the tile width (exact ceiling), and loops exactly when the padded
    length exceeds the tile width. *)
Theorem planner_follows_rule (max_seq_len head_size : Z) :
  1 <= max_seq_len ->
  max_seq_len + base_N head_size <= INT_MAX ->
  supported_head_size head_size ->
  plan_agrees max_seq_len head_size.
Proof.
  intros Hlo Hhi Hhs. unfold plan_agrees.
  assert (Hlen : seq_len max_seq_len (base_N head_size)
                 = padded_seq_len max_seq_len (base_tile_width head_size)).
  { unfold seq_len, padded_seq_len. change (base_tile_width head_size) with (base_N head_size).
    destruct (max_seq_len <=? 128) eqn:H1; [reflexivity|].
    destruct (max_seq_len <=? 256) eqn:H2; [reflexivity|].
    apply Z.leb_gt in H2.
    pose proof (base_N_cases head_size) as Hb.
    rewrite round_up_exact by assumption.
    rewrite Qceiling_ratio by (destruct Hb as [-> | ->]; lia).
    reflexivity. }
  split; [reflexivity|]. split; [exact Hlen|].
  unfold loop, looped. rewrite Hlen. reflexivity.
Qed.

Lemma planner_follows_rule_witness : plan_agrees 300 64.
Proof.
  apply planner_follows_rule.
  - lia.
  - vm_compute. discriminate.
  - unfold supported_head_size. auto.
Defined.

(** C1 as stated fails at the top of the [int] range: the exact padded
    length [2^31] is not an [int], so the code cannot produce it. *)
Lemma planner_rule_fails_at_int_max :
  1 <= 2147483647 /\ is_int 2147483647 /\ supported_head_size 16
  /\ ~ plan_agrees 2147483647 16.
Proof.
  split; [lia|]. split; [unfold is_int, INT_MIN, INT_MAX; lia|].
  split; [unfold supported_head_size; auto|].
  unfold plan_agrees. intros (_ & H & _). vm_compute in H. discriminate H.
Qed.

End PlannerFacts.

(** ** Rounding in [SpecFloat]

    What [binary_round_aux] and [binary_round] compute on a positive
    mantissa in the normal range, in terms of integer division. *)

Lemma pow2_pos (k : Z) : 0 <= k -> 0 < 2 ^ k.
Proof. intros. apply Z.pow_pos_nonneg; lia. Qed.

Lemma pow2_split (a b : Z) : 0 <= a -> 0 <= b -> 2 ^ (a + b) = 2 ^ a * 2 ^ b.
Proof. intros. apply Z.pow_add_r; assumption. Qed.

Lemma digits2_pos_bounds (m : positive) :
  2 ^ (Zpos (digits2_pos m) - 1) <= Zpos m < 2 ^ Zpos (digits2_pos m).
Proof.
  induction m as [p IH|p IH|]; cbn [digits2_pos].
  - rewrite Pos2Z.inj_succ, Z.pow_succ_r by lia.
    replace (Z.succ (Zpos (digits2_pos p)) - 1) with (Z.succ (Zpos (digits2_pos p) - 1)) by lia.
    rewrite Z.pow_succ_r by lia. lia.
  - rewrite Pos2Z.inj_succ, Z.pow_succ_r by lia.
    replace (Z.succ (Zpos (digits2_pos p)) - 1) with (Z.succ (Zpos (digits2_pos p) - 1)) by lia.
    rewrite Z.pow_succ_r by lia. lia.
  - cbn. lia.
Qed.

Lemma digits2_pos_unique (m : positive) (k : Z) :
  2 ^ (k - 1) <= Zpos m < 2 ^ k -> Zpos (digits2_pos m) = k.
Proof.
  intros [Hlo Hhi]. pose proof (digits2_pos_bounds m) as [Dlo Dhi].
  set (d := Zpos (digits2_pos m)) in *.
  assert (0 < d) by (subst d; lia).
  destruct (Z.lt_trichotomy d k) as [Hlt|[Heq|Hgt]]; [|assumption|].
  - exfalso. assert (2 ^ d <= 2 ^ (k - 1)) by (apply Z.pow_le_mono_r; lia). lia.
  - exfalso. destruct (Z.le_gt_cases 0 k) as [Hk|Hk].
    + assert (2 ^ k <= 2 ^ (d - 1)) by (apply Z.pow_le_mono_r; lia). lia.
    + rewrite (Z.pow_neg_r 2 k) in Hhi by lia. lia.
Qed.

Lemma iter_pos_nat {A : Type} (f : A -> A) (p : positive) (x : A) :
  SpecFloat.iter_pos f p x = Nat.iter (Pos.to_nat p) f x.
Proof.
  revert x. induction p as [p IH|p IH|]; intros x; cbn [SpecFloat.iter_pos].
  - rewrite !IH, Pos2Nat.inj_xI. cbn [Nat.mul].
    rewrite Nat.add_0_r, <- Nat.iter_add, Nat.iter_succ_r. reflexivity.
  - rewrite !IH, Pos2Nat.inj_xO. cbn [Nat.mul].
    rewrite Nat.add_0_r, <- Nat.iter_add. reflexivity.
  - reflexivity.
Qed.

Lemma shr_1_nonneg (m : Z) (r s : bool) :
  0 <= m ->
  shr_1 {| shr_m := m; shr_r := r; shr_s := s |}
  = {| shr_m := m / 2; shr_r := Z.odd m; shr_s := r || s |}.
Proof.
  intros Hm. rewrite <- Z.div2_div.
  destruct m as [|[p|p|]|p]; try lia; reflexivity.
Qed.

Lemma sticky_step (m k : Z) :
  0 <= m -> 0 <= k ->
  negb (m mod 2 ^ (k + 1) =? 0)
  = Z.odd (m / 2 ^ k) || negb (m mod 2 ^ k =? 0).
Proof.
  intros Hm Hk.
  pose proof (pow2_pos k Hk) as Hp.
  rewrite pow2_split, Z.pow_1_r by lia.
  rewrite Z.rem_mul_r by lia.
  pose proof (Z.mod_pos_bound m (2 ^ k) Hp) as Hr.
  rewrite <- Z.bit0_odd.
  pose proof (Z.bit0_mod (m / 2 ^ k)) as Hb. rewrite <- Hb.
  destruct (Z.testbit (m / 2 ^ k) 0); cbn [Z.b2z orb].
  - destruct (Z.eqb_spec (m mod 2 ^ k + 2 ^ k * 1) 0); [lia|reflexivity].
  - rewrite Z.mul_0_r, Z.add_0_r. reflexivity.
Qed.

Lemma shr_iter_spec (m : Z) (k : nat) :
  0 <= m ->
  Nat.iter (S k) shr_1 {| shr_m := m; shr_r := false; shr_s := false |}
  = {| shr_m := m / 2 ^ (Z.of_nat k + 1);
       shr_r := Z.odd (m / 2 ^ Z.of_nat k);
       shr_s := negb (m mod 2 ^ Z.of_nat k =? 0) |}.
Proof.
  intros Hm. induction k as [|k IH].
  - cbn [Nat.iter]. rewrite shr_1_nonneg by assumption.
    cbn [Z.of_nat Z.add]. rewrite Z.pow_0_r, Z.pow_1_r, Z.div_1_r, Z.mod_1_r.
    reflexivity.
  - rewrite Nat.iter_succ, IH.
    assert (Hq : 0 <= m / 2 ^ (Z.of_nat k + 1))
      by (apply Z.div_pos; [assumption|apply pow2_pos; lia]).
    rewrite shr_1_nonneg by assumption.
    rewrite Nat2Z.inj_succ. unfold Z.succ.
    f_equal.
    + rewrite Z.div_div by (try apply pow2_pos; lia).
      rewrite (pow2_split (Z.of_nat k + 1) 1), Z.pow_1_r by lia. reflexivity.
    + symmetry. apply sticky_step; lia.
Qed.

Lemma shr_spec (m e n : Z) :
  0 <= m -> 0 < n ->
  shr {| shr_m := m; shr_r := false; shr_s := false |} e n
  = ({| shr_m := m / 2 ^ n;
        shr_r := Z.odd (m / 2 ^ (n - 1));
        shr_s := negb (m mod 2 ^ (n - 1) =? 0) |}, e + n).
Proof.
  intros Hm Hn. destruct n as [|p|p]; try lia. cbn [shr].
  rewrite iter_pos_nat.
  destruct (Pos.to_nat p) as [|k] eqn:Hk; [pose proof (Pos2Nat.is_pos p); lia|].
  rewrite shr_iter_spec by assumption.
  assert (Hz : Z.of_nat k + 1 = Zpos p) by lia.
  rewrite Hz. replace (Z.of_nat k) with (Zpos p - 1) by lia. reflexivity.
Qed.

(** Round-to-nearest-even moves the truncated mantissa up by at most one,
    and not at all when nothing was shifted out. *)
Lemma round_nearest_even_cases (q : Z) (r s : bool) :
  let m1 := round_nearest_even q
              (loc_of_shr_record {| shr_m := q; shr_r := r; shr_s := s |}) in
  (m1 = q \/ m1 = q + 1) /\ (r = false -> m1 = q).
Proof.
  destruct r, s; cbn; try destruct (Z.even q); split; auto; discriminate.
Qed.

Section Rounding.

Variables prec emax : Z.
Hypothesis prec_pos : 0 < prec.

Local Abbreviation emin_ := (emin prec emax).
Local Abbreviation fexp_ := (fexp prec emax).

(** A mantissa that already fits is kept as it is. *)
Lemma round_aux_fits (s : bool) (m : positive) (e : Z) :
  Zpos (digits2_pos m) <= prec -> emin_ <= e -> e <= emax - prec ->
  binary_round_aux prec emax s (Zpos m) e loc_Exact = S754_finite s m e.
Proof.
  intros Hd Hlo Hhi.
  assert (Hn : fexp_ (Zdigits2 (Zpos m) + e) - e <= 0)
    by (unfold fexp, Zdigits2; lia).
  unfold binary_round_aux, shr_fexp. cbn [shr_record_of_loc].
  destruct (fexp_ (Zdigits2 (Zpos m) + e) - e) as [|p|p] eqn:Hk; try lia;
    cbn [shr shr_m loc_of_shr_record round_nearest_even];
    rewrite Hk; cbn [shr shr_m];
    apply Z.leb_le in Hhi; now rewrite Hhi.
Qed.

(** A longer mantissa is cut to [prec] digits: the result is the
    truncation or its successor, and the truncation itself when the cut
    digits are all zero. *)
Lemma round_aux_cut (s : bool) (m : positive) (e : Z) :
  let d := Zpos (digits2_pos m) in
  let k := d - prec in
  prec < d -> emin_ <= e + k -> d + e < emax ->
  exists (m2 : positive) (e2 : Z),
    binary_round_aux prec emax s (Zpos m) e loc_Exact = S754_finite s m2 e2
    /\ bounded prec emax m2 e2 = true
    /\ e + k <= e2
    /\ (Zpos m2 * 2 ^ (e2 - e) = Zpos m / 2 ^ k * 2 ^ k
        \/ Zpos m2 * 2 ^ (e2 - e) = (Zpos m / 2 ^ k + 1) * 2 ^ k)
    /\ (Zpos m mod 2 ^ k = 0 -> Zpos m2 * 2 ^ (e2 - e) = Zpos m).
Proof.
  intros d k Hd Hlo Hhi.
  pose proof (digits2_pos_bounds m) as [Dlo Dhi]. fold d in Dlo, Dhi.
  assert (Hk : 0 < k) by (subst k; lia).
  pose proof (pow2_pos k ltac:(lia)) as Hpk.
  set (q := Zpos m / 2 ^ k).
  assert (Hq : 2 ^ (prec - 1) <= q < 2 ^ prec).
  { subst q. split.
    - apply Z.div_le_lower_bound; [assumption|].
      rewrite Z.mul_comm, <- pow2_split by lia.
      replace (prec - 1 + k) with (d - 1) by (subst k; lia). assumption.
    - apply Z.div_lt_upper_bound; [assumption|].
      rewrite <- pow2_split by lia.
      replace (k + prec) with d by (subst k; lia). assumption. }
  assert (Hfexp1 : fexp_ (Zdigits2 (Zpos m) + e) - e = k)
    by (unfold fexp, Zdigits2; fold d; subst k; lia).
  unfold binary_round_aux, shr_fexp. cbn [shr_record_of_loc].
  rewrite Hfexp1, shr_spec by lia. fold q.
  set (r := Z.odd (Zpos m / 2 ^ (k - 1))).
  set (st := negb (Zpos m mod 2 ^ (k - 1) =? 0)).
  cbn [shr_m].
  destruct (round_nearest_even_cases q r st) as [Hm1 Hex].
  set (m1 := round_nearest_even q
               (loc_of_shr_record {| shr_m := q; shr_r := r; shr_s := st |})) in *.
  cbv zeta in Hm1, Hex.
  assert (Hexact : Zpos m mod 2 ^ k = 0 -> m1 = q).
  { intros Hz. apply Hex. subst r.
    assert (Hs : 2 ^ k = 2 ^ (k - 1) * 2)
      by (rewrite <- (Z.pow_1_r 2) at 3; rewrite <- pow2_split by lia; f_equal; lia).
    pose proof (pow2_pos (k - 1) ltac:(lia)) as Hpk1.
    assert (Hdiv : Zpos m / 2 ^ (k - 1) = 2 * (Zpos m / 2 ^ k)).
    { rewrite Hs in Hz |- *. rewrite <- Z.div_div by lia.
      pose proof (Z.div_mod (Zpos m) (2 ^ (k - 1) * 2) ltac:(lia)) as E1.
      rewrite Hz, Z.add_0_r in E1.
      rewrite E1 at 1.
      rewrite (Z.mul_comm (2 ^ (k - 1)) 2), <- Z.mul_assoc, (Z.mul_comm 2).
      rewrite <- Z.mul_assoc.
      rewrite (Z.mul_comm (2 ^ (k - 1))), Z.div_mul by lia.
      rewrite Z.div_div by lia. rewrite (Z.mul_comm 2 (2 ^ (k - 1))). lia. }
    rewrite Hdiv, Z.odd_mul. reflexivity. }
  assert (Hm1pos : 0 < m1) by (pose proof (pow2_pos (prec - 1) ltac:(lia)); lia).
  assert (Hval : Zpos m mod 2 ^ k = 0 -> q * 2 ^ k = Zpos m).
  { intros Hz. subst q. pose proof (Z.div_mod (Zpos m) (2 ^ k) ltac:(lia)). lia. }
  destruct (Z.lt_ge_cases m1 (2 ^ prec)) as [Hlt|Hge].
  - (* no carry *)
    destruct m1 as [|m1p|m1p] eqn:Em1; try lia.
    assert (Hdig : Zpos (digits2_pos m1p) = prec)
      by (apply digits2_pos_unique; lia).
    assert (Hfexp2 : fexp_ (Zdigits2 (Zpos m1p) + (e + k)) - (e + k) = 0)
      by (unfold fexp, Zdigits2; rewrite Hdig; lia).
    rewrite Hfexp2. cbn [shr shr_m].
    assert (Hle : (e + k <=? emax - prec) = true) by (apply Z.leb_le; subst k; lia).
    rewrite Hle. exists m1p, (e + k).
    split; [reflexivity|]. split.
    { unfold bounded, canonical_mantissa. rewrite Hdig, Hle, andb_true_r.
      apply Z.eqb_eq. unfold fexp. lia. }
    split; [lia|].
    replace (e + k - e) with k by lia.
    split; [destruct Hm1 as [-> | ->]; auto|].
    intros Hz. rewrite (Hexact Hz). auto.
  - (* the rounding carried into a new digit *)
    assert (Em1 : m1 = 2 ^ prec) by lia.
    assert (Hq1 : q + 1 = 2 ^ prec) by lia.
    destruct m1 as [|m1p|m1p] eqn:Em1'; try lia.
    assert (Hdig : Zpos (digits2_pos m1p) = prec + 1).
    { apply digits2_pos_unique. replace (prec + 1 - 1) with prec by lia.
      rewrite Em1. split; [lia|]. apply Z.pow_lt_mono_r; lia. }
    assert (Hfexp2 : fexp_ (Zdigits2 (Zpos m1p) + (e + k)) - (e + k) = 1)
      by (unfold fexp, Zdigits2; rewrite Hdig; lia).
    rewrite Hfexp2, shr_spec by lia. cbn [shr_m].
    rewrite Em1, Z.pow_1_r.
    assert (Hhalf : 2 ^ prec / 2 = 2 ^ (prec - 1)).
    { replace prec with (prec - 1 + 1) at 1 by lia.
      rewrite pow2_split, Z.pow_1_r by lia. apply Z.div_mul. lia. }
    rewrite Hhalf.
    pose proof (pow2_pos (prec - 1) ltac:(lia)) as Hpp.
    destruct (2 ^ (prec - 1)) as [|m2|m2] eqn:Em2; try lia.
    assert (Hle : (e + k + 1 <=? emax - prec) = true) by (apply Z.leb_le; subst k; lia).
    rewrite Hle. exists m2, (e + k + 1).
    split; [reflexivity|].
    assert (Hdig2 : Zpos (digits2_pos m2) = prec).
    { apply digits2_pos_unique. rewrite <- Em2. split; [lia|].
      apply Z.pow_lt_mono_r; lia. }
    split.
    { unfold bounded, canonical_mantissa. rewrite Hdig2, Hle, andb_true_r.
      apply Z.eqb_eq. unfold fexp. lia. }
    split; [lia|].
    replace (e + k + 1 - e) with (k + 1) by lia.
    assert (Hv : Zpos m2 * 2 ^ (k + 1) = (q + 1) * 2 ^ k).
    { rewrite <- Em2, Hq1, pow2_split, Z.pow_1_r by lia.
      replace prec with (prec - 1 + 1) at 2 by lia.
      rewrite (pow2_split (prec - 1) 1), Z.pow_1_r by lia. lia. }
    split; [right; exact Hv|].
    intros Hz. pose proof (Hexact Hz). lia.
Qed.

(** [binary_round] pads a short mantissa to [prec] digits without
    changing the value. *)
Lemma binary_round_pads (s : bool) (m : positive) (e : Z) :
  let d := Zpos (digits2_pos m) in
  d <= prec -> emin_ <= e - (prec - d) -> e - (prec - d) <= emax - prec ->
  exists m' : positive,
    binary_round prec emax s m e = S754_finite s m' (e - (prec - d))
    /\ Zpos m' = Zpos m * 2 ^ (prec - d)
    /\ Zpos (digits2_pos m') = prec.
Proof.
  cbv zeta. remember (Zpos (digits2_pos m)) as d eqn:Ed. intros Hd Hlo Hhi.
  pose proof (digits2_pos_bounds m) as [Dlo Dhi]. rewrite <- Ed in Dlo, Dhi.
  unfold binary_round, shl_align. rewrite <- Ed.
  assert (Hf : fexp_ (d + e) = e - (prec - d)) by (unfold fexp; lia).
  rewrite Hf.
  destruct (e - (prec - d) - e) as [|p|p] eqn:Hk; try lia.
  - assert (Hdp : d = prec) by lia.
    exists m. replace (e - (prec - d)) with e by lia.
    rewrite round_aux_fits by lia.
    replace (prec - d) with 0 by lia. rewrite Z.mul_1_r. split; [reflexivity|]. lia.
  - assert (Hp : Zpos p = prec - d) by lia.
    fold (shift_pos p m).
    assert (Hv : Zpos (shift_pos p m) = Zpos m * 2 ^ (prec - d)).
    { rewrite shift_pos_correct, Zpower_pos_nat, <- Hp.
      rewrite Zpower_nat_Z, positive_nat_Z. lia. }
    assert (Hdig : Zpos (digits2_pos (shift_pos p m)) = prec).
    { apply digits2_pos_unique. rewrite Hv.
      pose proof (pow2_pos (prec - d) ltac:(lia)).
      assert (E1 : 2 ^ (prec - 1) = 2 ^ (d - 1) * 2 ^ (prec - d))
        by (rewrite <- pow2_split by lia; f_equal; lia).
      assert (E2 : 2 ^ prec = 2 ^ d * 2 ^ (prec - d))
        by (rewrite <- pow2_split by lia; f_equal; lia).
      rewrite E1, E2.
      split; [apply Z.mul_le_mono_nonneg_r; lia|apply Z.mul_lt_mono_pos_r; lia]. }
    exists (shift_pos p m).
    rewrite round_aux_fits by lia. auto.
Qed.

End Rounding.

Lemma binary_round_long (prec emax : Z) (s : bool) (m : positive) (e : Z) :
  prec <= Zpos (digits2_pos m) ->
  emin prec emax <= Zpos (digits2_pos m) + e - prec ->
  binary_round prec emax s m e = binary_round_aux prec emax s (Zpos m) e loc_Exact.
Proof.
  intros Hd Hlo. unfold binary_round, shl_align.
  assert (Hf : fexp prec emax (Zpos (digits2_pos m) + e)
               = Zpos (digits2_pos m) + e - prec) by (unfold fexp; lia).
  rewrite Hf.
  destruct (Zpos (digits2_pos m) + e - prec - e) eqn:Hk; try lia; reflexivity.
Qed.

(** [Z.shiftl m e] is the floor of [m * 2^e]; the same floor read at a
    finer scale. *)
Lemma shiftl_rescale (m e b : Z) :
  b <= e -> b <= 0 -> Z.shiftl m e = (m * 2 ^ (e - b)) / 2 ^ (- b).
Proof.
  intros Hbe Hb.
  pose proof (pow2_pos (- b) ltac:(lia)) as Hpb.
  destruct (Z.le_gt_cases 0 e) as [He|He].
  - rewrite Z.shiftl_mul_pow2 by lia.
    replace (e - b) with (e + - b) by lia.
    rewrite pow2_split, Z.mul_assoc by lia. now rewrite Z.div_mul by lia.
  - rewrite Z.shiftl_div_pow2 by lia.
    replace (- b) with (- e + (e - b)) by lia.
    rewrite pow2_split by lia.
    pose proof (pow2_pos (e - b) ltac:(lia)).
    pose proof (pow2_pos (- e) ltac:(lia)).
    rewrite Z.div_mul_cancel_r by lia. reflexivity.
Qed.

(** An integer below [2^53] survives the round trip through [double]. *)
Lemma Ztrunc_normalize (F : Z) :
  0 <= F < 2 ^ 53 -> Ztrunc (binary_normalize 53 1024 F 0 false) = F.
Proof.
  intros [Hlo Hhi]. destruct F as [|f|f]; try lia; [reflexivity|].
  cbn [binary_normalize].
  assert (Hd : Zpos (digits2_pos f) <= 53).
  { pose proof (digits2_pos_bounds f) as [Dlo _].
    destruct (Z.le_gt_cases (Zpos (digits2_pos f)) 53) as [H|H]; [assumption|].
    assert (2 ^ 53 <= 2 ^ (Zpos (digits2_pos f) - 1)) by (apply Z.pow_le_mono_r; lia).
    lia. }
  destruct (binary_round_pads 53 1024 ltac:(lia) false f 0) as (m' & -> & Hv & _);
    try (unfold emin; lia).
  cbn [Ztrunc cond_Zopp]. rewrite Hv.
  rewrite Z.shiftl_div_pow2 by lia.
  replace (- (0 - (53 - Zpos (digits2_pos f)))) with (53 - Zpos (digits2_pos f)) by lia.
  apply Z.div_mul. pose proof (pow2_pos (53 - Zpos (digits2_pos f)) ltac:(lia)). lia.
Qed.

(** The exact floor of a scaled dyadic, through [Q]. *)
Lemma Qfloor_dyadic (a c e : Z) :
  e <= 0 ->
  Qfloor (inject_Z a * Qpower 2 e * inject_Z c) = (a * c) / 2 ^ (- e).
Proof.
  intros He.
  pose proof (pow2_pos (- e) ltac:(lia)) as Hp.
  assert (Hq : (inject_Z a * Qpower 2 e * inject_Z c
                == inject_Z (a * c) / inject_Z (2 ^ (- e)))%Q).
  { replace e with (- - e) at 1 by lia.
    rewrite Qpower_opp, <- (Zpower_Qpower 2 (- e)) by lia.
    rewrite inject_Z_mult. field.
    intros H. apply (Qeq_bool_neq (inject_Z (2 ^ (- e))) 0); [|exact H].
    unfold Qeq_bool, inject_Z. cbn. rewrite Z.mul_1_r.
    apply Z.eqb_neq. lia. }
  rewrite (Qfloor_comp _ _ Hq).
  destruct (2 ^ (- e)) as [|p|p] eqn:Ep; try lia.
  unfold Qfloor, Qdiv, Qinv, Qmult, inject_Z. cbn.
  now rewrite !Z.mul_1_r.
Qed.

(** ** Forward entry point *)

Lemma first_failure_app (cs : list (bool * Error)) (c : bool) (e : Error) :
  first_failure (cs ++ [(c, e)]) =
  match first_failure cs with
  | Some e' => Some e'
  | None => if c then None else Some e
  end.
Proof.
  induction cs as [|[[] e'] cs IH]; simpl; auto.
Qed.

Lemma alter_app_here {A : Type} (f : A -> A) (l k : list A) :
  alter f (length l) (l ++ k) = l ++ alter f 0%nat k.
Proof.
  rewrite <- (Nat.add_0_r (length l)) at 1. apply alter_app_r.
Qed.

Lemma lookup_app_plus {A : Type} (l k : list A) (i : nat) :
  (l ++ k) !! (length l + i)%nat = k !! i.
Proof. rewrite lookup_app_r by lia. f_equal. lia. Qed.

Lemma lookup_app_here {A : Type} (l k : list A) :
  (l ++ k) !! (length l) = k !! 0%nat.
Proof. rewrite <- (Nat.add_0_r (length l)) at 1. apply lookup_app_plus. Qed.

Section ForwardFacts.

Context (get_size_in_bytes : Z -> Data_type -> Z).
Context (set_alpha : spec_float -> Data_type -> Z).
Context (fmha_kernel : Launch_params -> bool -> Memory -> Launch_params * Memory).
Context (philox_cuda_state_impl :
           CUDAGeneratorImpl -> Z -> PhiloxCudaState * CUDAGeneratorImpl).

Context (qkvv cu_seqlens : Tensor) (p_dropout : spec_float) (max_seq_len : Z)
        (softmax_scale : spec_float) (zero_tensors is_causal return_softmax : bool)
        (gen_ : option Generator).

Local Abbreviation fwd :=
  (mha_fwd get_size_in_bytes set_alpha fmha_kernel philox_cuda_state_impl
     qkvv cu_seqlens p_dropout max_seq_len softmax_scale
     zero_tensors is_causal return_softmax gen_).
Local Abbreviation checks_ := (checks qkvv cu_seqlens p_dropout).
Local Abbreviation early_checks_ := (early_checks qkvv cu_seqlens p_dropout).
Local Abbreviation result_ :=
  (result qkvv cu_seqlens max_seq_len return_softmax).
Local Abbreviation world_prepared_ :=
  (world_prepared qkvv cu_seqlens max_seq_len zero_tensors return_softmax).
Local Abbreviation world_final_ :=
  (world_final get_size_in_bytes set_alpha fmha_kernel philox_cuda_state_impl
     qkvv cu_seqlens p_dropout max_seq_len softmax_scale
     zero_tensors is_causal return_softmax gen_).
Local Abbreviation lp_configure_ :=
  (lp_configure get_size_in_bytes set_alpha
     qkvv cu_seqlens p_dropout max_seq_len softmax_scale is_causal return_softmax).
Local Abbreviation memory_prepared_ :=
  (memory_prepared qkvv cu_seqlens max_seq_len zero_tensors return_softmax).
Local Abbreviation configured_ :=
  (configured get_size_in_bytes set_alpha fmha_kernel
     qkvv cu_seqlens p_dropout max_seq_len softmax_scale
     zero_tensors is_causal return_softmax).
Local Abbreviation lp_launch_ :=
  (lp_launch get_size_in_bytes set_alpha fmha_kernel philox_cuda_state_impl
     qkvv cu_seqlens p_dropout max_seq_len softmax_scale
     zero_tensors is_causal return_softmax gen_).
Local Abbreviation reserved_ :=
  (reserved get_size_in_bytes set_alpha fmha_kernel philox_cuda_state_impl
     qkvv cu_seqlens p_dropout max_seq_len softmax_scale
     zero_tensors is_causal return_softmax gen_).
Local Abbreviation counter_offset_ :=
  (counter_offset get_size_in_bytes set_alpha fmha_kernel
     qkvv cu_seqlens p_dropout max_seq_len softmax_scale
     zero_tensors is_causal return_softmax).
Local Abbreviation loop_ := (loop qkvv max_seq_len).
Local Abbreviation seq_len_ := (seq_len qkvv max_seq_len).

Ltac unfold_locals :=
  unfold batch_size, total, num_heads, head_size, seq_len, loop, gen in *.

Ltac run_checks w :=
  unfold mha_fwd;
  cbv beta iota zeta delta
    [mbind M_bind getCurrentDeviceProperties getCurrentCUDAStream TORCH_CHECK];
  unfold early_checks, checks; unfold_locals; cbn [take first_failure];
  destruct ((major (device w) =? 8) && (0 <=? minor (device w))) eqn:?;
  [ destruct (is_cuda qkvv) eqn:?;
    [ destruct (is_cuda cu_seqlens) eqn:?;
      [ destruct (is_contiguous qkvv) eqn:?;
        [ destruct (is_contiguous cu_seqlens) eqn:?;
          [ destruct (dim cu_seqlens =? 1) eqn:?;
            [ destruct (dim qkvv =? 4) eqn:?;
              [ destruct (size_at qkvv THREE_DIM =? 4) eqn:?;
                [ destruct (0 <? to_int (numel cu_seqlens - 1)) eqn:?;
                  [ destruct (head_size_ok (to_int (size_at qkvv D_DIM))) eqn:?
                  | ] | ] | ] | ] | ] | ] | ] | ] | ].

(** A failure of one of the checks of [mha_fwd] itself leaves the world
    as it was. *)
Lemma fwd_early_failure (w : World) (e : Error) :
  first_failure (early_checks_ w) = Some e -> fwd w = (inl e, w).
Proof.
  run_checks w; intros [= <-]; reflexivity.
Qed.

(** A call that passes the checks of [mha_fwd] itself builds exactly the
    state written out in [world_prepared]; it then fails in [set_params]
    or goes on to the launch and ends in [world_final]. *)
Lemma fwd_run (w : World) :
  first_failure (early_checks_ w) = None ->
  fwd w =
    if float_ltb p_dropout (float_of_Z 1)
    then (inr (result_ w), world_final_ w)
    else (inl InvalidDropoutProbability, world_prepared_ w).
Proof.
  run_checks w; intros H; try discriminate H; clear H.
  unfold result, world_final, world_prepared, launched, lp_launch, rng_events,
    reserved, counter_offset, configured, lp_configure, params_set, params_result,
    memory_prepared, prefill_events, alloc_events, new_buffers,
    ptr_s, ptr_lse, ptr_o2_tmp, ptr_o_tmp, ptr_ctx2, ptr_ctx, p0,
    zero_contents, tensor, buffer, shape_s, shape_lse, shape_ctx, opts_float, opts.
  unfold_locals. unfold set_params.
  destruct w as [dev str mem gens lg].
  destruct (Planner.loop _ _); destruct return_softmax; destruct zero_tensors;
    destruct (float_ltb p_dropout (float_of_Z 1));
    destruct (dropout_enabled p_dropout);
    cbv beta iota zeta delta
      [mbind M_bind mret M_ret fmap M_fmap torch_empty zero_ fill_ zero_opt
       lift_result data_ptr_opt option_fmap option_map
       run_fmha_fp16_sm80 lock_guard_acquire lock_guard_release philox_cuda_state
       option_list option_rect
       emit set_memory set_generators device stream memory generators log
       data_ptr fst snd].
  all: rewrite <- ?app_assoc; cbn [app].
  all: rewrite ?length_app; cbn [length].
  all: repeat (rewrite alter_app_r || rewrite alter_app_here);
    cbn [alter list_alter set_data buf_shape buf_dtype buf_data].
  all: reflexivity.
Qed.

(** The outcome of a call: the first check that fails, or the results. *)
Lemma fwd_outcome (w : World) :
  fst (fwd w) =
  match first_failure (checks_ w) with
  | Some e => inl e
  | None => inr (result_ w)
  end.
Proof.
  assert (Hsplit : checks_ w
                   = early_checks_ w
                     ++ [(float_ltb p_dropout (float_of_Z 1), InvalidDropoutProbability)])
    by reflexivity.
  rewrite Hsplit, first_failure_app.
  destruct (first_failure (early_checks_ w)) as [e|] eqn:He.
  - now rewrite (fwd_early_failure w e He).
  - rewrite (fwd_run w He). now destruct (float_ltb p_dropout (float_of_Z 1)).
Qed.

Lemma fwd_success_inv (w w' : World) (res : list Tensor) :
  fwd w = (inr res, w') ->
  res = result_ w /\ w' = world_final_ w
  /\ float_ltb p_dropout (float_of_Z 1) = true.
Proof.
  intros H. destruct (first_failure (early_checks_ w)) as [e|] eqn:He.
  - rewrite (fwd_early_failure w e He) in H. discriminate H.
  - rewrite (fwd_run w He) in H.
    destruct (float_ltb p_dropout (float_of_Z 1)); [|discriminate H].
    injection H as <- <-. auto.
Qed.

Lemma checks_pass_iff (w : World) :
  first_failure (take 7 (checks_ w)) = None <->
  passes_tensor_checks qkvv cu_seqlens w.
Proof.
  unfold checks, passes_tensor_checks. cbn [take first_failure].
  destruct ((major (device w) =? 8) && (0 <=? minor (device w))) eqn:Hd.
  2:{ split; [discriminate|]. intros [[H1 H2] _].
      apply Z.eqb_eq in H1. apply Z.leb_le in H2. rewrite H1, H2 in Hd. discriminate Hd. }
  apply andb_true_iff in Hd as [H1%Z.eqb_eq H2%Z.leb_le].
  destruct (is_cuda qkvv); [|split; [discriminate|intros (_ & [=] & _)]].
  destruct (is_cuda cu_seqlens); [|split; [discriminate|intros (_ & _ & [=] & _)]].
  destruct (is_contiguous qkvv); [|split; [discriminate|intros (_ & _ & _ & [=] & _)]].
  destruct (is_contiguous cu_seqlens);
    [|split; [discriminate|intros (_ & _ & _ & _ & [=] & _)]].
  destruct (dim cu_seqlens =? 1) eqn:H3;
    [apply Z.eqb_eq in H3
    |apply Z.eqb_neq in H3; split; [discriminate|intros (_ & _ & _ & _ & _ & ? & _); lia]].
  destruct (dim qkvv =? 4) eqn:H4;
    [apply Z.eqb_eq in H4
    |apply Z.eqb_neq in H4; split; [discriminate|intros (_ & _ & _ & _ & _ & _ & ?); lia]].
  split; auto 10.
Qed.

Lemma first_failure_take_None (cs : list (bool * Error)) (n : nat) (e : Error) :
  first_failure cs = Some e ->
  first_failure (take n cs) = None \/ first_failure (take n cs) = Some e.
Proof.
  revert n. induction cs as [|[[] e'] cs IH]; intros [|n]; simpl; auto.
Qed.

Ltac split_checks :=
  unfold checks; cbn [first_failure];
  repeat match goal with
         | |- context [first_failure ((?c, _) :: _)] =>
             destruct c eqn:?; cbn [first_failure]
         | |- context [if ?c then _ else _] => destruct c eqn:?
         | |- context [match ?c with true => _ | false => _ end] => destruct c eqn:?
         end.

Ltac bools_to_props :=
  repeat match goal with
         | H : (_ && _) = true |- _ => apply andb_true_iff in H; destruct H
         | H : (_ && _) = false |- _ => apply andb_false_iff in H; destruct H
         | H : (_ =? _) = true |- _ => apply Z.eqb_eq in H
         | H : (_ =? _) = false |- _ => apply Z.eqb_neq in H
         | H : (_ <=? _) = true |- _ => apply Z.leb_le in H
         | H : (_ <=? _) = false |- _ => apply Z.leb_gt in H
         | H : (_ <? _) = true |- _ => apply Z.ltb_lt in H
         | H : (_ <? _) = false |- _ => apply Z.ltb_ge in H
         end.

Ltac solve_check_iff :=
  split_checks; bools_to_props; unfold passes_tensor_checks, batch_size in *;
  (split;
   [ let Hg := fresh "Hg" in
     intros Hg; try discriminate Hg; repeat split; solve [assumption | lia | congruence]
   | let Hg := fresh "Hg" in
     intros Hg;
     repeat match goal with H : _ /\ _ |- _ => destruct H end;
     try reflexivity; exfalso; solve [lia | congruence | tauto] ]).

(** C9 (as amended): the forward entry point itself checks the device
    capability, before anything else: the call fails with
    [DeviceCapabilityUnsupported] exactly when the current device is not
    of major version 8 with a non-negative minor version, and then
    nothing has been allocated, logged or dispatched. *)
Theorem device_capability_checked_first (w : World) :
  (fst (fwd w) = inl DeviceCapabilityUnsupported
   <-> ~ (major (device w) = 8 /\ 0 <= minor (device w)))
  /\ (fst (fwd w) = inl DeviceCapabilityUnsupported -> snd (fwd w) = w).
Proof.
  assert (Hiff : fst (fwd w) = inl DeviceCapabilityUnsupported
                 <-> ~ (major (device w) = 8 /\ 0 <= minor (device w))).
  { rewrite fwd_outcome. solve_check_iff. }
  split; [exact Hiff|]. intros H. apply Hiff in H.
  rewrite (fwd_early_failure w DeviceCapabilityUnsupported); [reflexivity|].
  unfold early_checks, checks. cbn [take first_failure].
  destruct ((major (device w) =? 8) && (0 <=? minor (device w))) eqn:Hd; [|reflexivity].
  bools_to_props. tauto.
Qed.

(** C2 (as amended): the packed-vector count must be 4.  Among the calls
    that pass the earlier checks (device capability, both tensors on the
    device and contiguous, offsets of rank 1, QKV of rank 4), the call is
    rejected at the third-axis check exactly when that axis is not 4; a
    third axis of 3 is rejected like any other size. *)
Theorem packed_count_must_be_four (w : World) :
  fst (fwd w) = inl PackedCountMismatch
  <-> passes_tensor_checks qkvv cu_seqlens w /\ size_at qkvv THREE_DIM <> 4.
Proof. rewrite fwd_outcome. solve_check_iff. Qed.

(** C3 (as amended): of the three conditions only the batch size is
    validated.  The call fails with [InvalidBatchLayout] exactly when it
    passes the earlier checks and [batch_size], the [int] value of
    [cu_seqlens.numel() - 1], is not positive; the failure leaves the
    world untouched, so nothing was allocated or dispatched.  The values
    of the offsets are not looked at: whether, and with which failure, a
    call is rejected does not depend on the contents of device memory. *)
Theorem batch_layout_validation (w : World) :
  (fst (fwd w) = inl InvalidBatchLayout
   <-> passes_tensor_checks qkvv cu_seqlens w /\ size_at qkvv THREE_DIM = 4
       /\ batch_size cu_seqlens <= 0)
  /\ (fst (fwd w) = inl InvalidBatchLayout -> snd (fwd w) = w)
  /\ (forall (mem' : Memory) (e : Error),
        fst (fwd (set_memory mem' w)) = inl e <-> fst (fwd w) = inl e).
Proof.
  assert (Hiff : fst (fwd w) = inl InvalidBatchLayout
                 <-> passes_tensor_checks qkvv cu_seqlens w
                     /\ size_at qkvv THREE_DIM = 4 /\ batch_size cu_seqlens <= 0).
  { rewrite fwd_outcome. unfold batch_size. solve_check_iff. }
  split; [exact Hiff|]. split.
  - intros H. apply Hiff in H. destruct H as (Hp & H3 & Hb).
    rewrite (fwd_early_failure w InvalidBatchLayout); [reflexivity|].
    apply checks_pass_iff in Hp. revert Hp.
    unfold early_checks, checks, batch_size in *. cbn [take first_failure].
    repeat match goal with
           | |- context [if ?c then _ else _] => destruct c eqn:?
           | |- context [match ?c with true => _ | false => _ end] => destruct c eqn:?
           end; bools_to_props; intros Hp; try discriminate Hp; try reflexivity; lia.
  - intros mem' e. rewrite !fwd_outcome.
    assert (Hsame : checks_ (set_memory mem' w) = checks_ w) by reflexivity.
    rewrite Hsame.
    destruct (first_failure (checks_ w)); [reflexivity|].
    split; discriminate.
Qed.

(** *** Successful calls *)

Lemma new_events_final (w : World) :
  new_events w (world_final_ w)
  = alloc_events qkvv cu_seqlens max_seq_len return_softmax w
    ++ prefill_events qkvv max_seq_len zero_tensors return_softmax w
    ++ [EvKernel true (lp_configure_ w) (memory_prepared_ w)]
    ++ rng_events get_size_in_bytes set_alpha fmha_kernel
         qkvv cu_seqlens p_dropout max_seq_len softmax_scale
         zero_tensors is_causal return_softmax gen_ w
    ++ [EvKernel false (lp_launch_ w) (snd (configured_ w))].
Proof. unfold new_events, world_final. cbn [log]. apply drop_app_length. Qed.

(** The addresses [set_params] stores for the driver. *)
Lemma configure_params (w : World) :
  float_ltb p_dropout (float_of_Z 1) = true ->
  let prm := Launch.params (lp_configure_ w) in
  Params.o_ptr prm = Some (ptr_ctx w)
  /\ Params.o2_ptr prm = Some (ptr_ctx2 w)
  /\ Params.o_tmp_ptr prm = (if loop_ then Some (ptr_o_tmp w) else None)
  /\ Params.o2_tmp_ptr prm = (if loop_ then Some (ptr_o2_tmp w) else None)
  /\ Params.softmax_lse_ptr prm = Some (ptr_lse qkvv max_seq_len w)
  /\ Params.s_ptr prm
     = (if return_softmax then Some (ptr_s qkvv max_seq_len w) else None).
Proof.
  intros Hp. unfold lp_configure, params_set, params_result, set_params.
  rewrite Hp. cbn. repeat split; reflexivity.
Qed.

Ltac case_flags :=
  unfold alloc_events, prefill_events, rng_events, memory_prepared, new_buffers,
    ptr_s, ptr_lse, ptr_o2_tmp, ptr_o_tmp, ptr_ctx2, ptr_ctx, p0;
  destruct (loop qkvv max_seq_len) eqn:?;
  destruct return_softmax eqn:?;
  destruct zero_tensors eqn:?;
  destruct (dropout_enabled p_dropout) eqn:?.

Ltac read_memory :=
  unfold contents_of, contents_at; cbn [mbind option_bind];
  rewrite ?lookup_app_plus, ?lookup_app_here;
  reflexivity.

(** C8: a call that returns hands back exactly the context, the secondary
    context and the log-sum-exp tensor, in that order, followed by the
    probability matrix exactly when [return_softmax] is set; these are the
    buffers whose addresses the driver received, the matrix has shape
    [batch_size, num_heads, seq_len, seq_len], and without
    [return_softmax] no buffer of that shape is allocated. *)
Theorem result_collection (w w' : World) (res : list Tensor) :
  fwd w = (inr res, w') ->
  exists (ctx ctx2 softmax_lse s : Tensor) (lp : Launch_params) (mem : Memory)
         (ev : list Event),
    res = [ctx; ctx2; softmax_lse] ++ (if return_softmax then [s] else [])
    /\ sizes ctx = [total qkvv; num_heads qkvv; head_size qkvv]
    /\ sizes ctx2 = [total qkvv; num_heads qkvv; head_size qkvv]
    /\ sizes softmax_lse = [batch_size cu_seqlens; num_heads qkvv; seq_len_]
    /\ sizes s = [batch_size cu_seqlens; num_heads qkvv; seq_len_; seq_len_]
    /\ List.filter is_driver_or_rng (new_events w w') = EvKernel true lp mem :: ev
    /\ Params.o_ptr (Launch.params lp) = Some (data_ptr ctx)
    /\ Params.o2_ptr (Launch.params lp) = Some (data_ptr ctx2)
    /\ Params.softmax_lse_ptr (Launch.params lp) = Some (data_ptr softmax_lse)
    /\ Params.s_ptr (Launch.params lp)
       = (if return_softmax then Some (data_ptr s) else None)
    /\ omap alloc_shape (new_events w w')
       = [sizes ctx; sizes ctx2]
         ++ (if loop_ then [sizes ctx; sizes ctx2] else [])
         ++ [sizes softmax_lse]
         ++ (if return_softmax then [sizes s] else []).
Proof.
  intros H. apply fwd_success_inv in H as (-> & -> & Hp).
  exists (tensor (shape_ctx qkvv) (opts qkvv) (ptr_ctx w)),
         (tensor (shape_ctx qkvv) (opts qkvv) (ptr_ctx2 w)),
         (tensor (shape_lse qkvv cu_seqlens max_seq_len) (opts_float qkvv)
            (ptr_lse qkvv max_seq_len w)),
         (tensor (shape_s qkvv cu_seqlens max_seq_len) (opts qkvv)
            (ptr_s qkvv max_seq_len w)),
         (lp_configure_ w), (memory_prepared_ w).
  rewrite new_events_final.
  destruct (configure_params w Hp) as (-> & -> & _ & _ & -> & ->).
  unfold result.
  case_flags; eexists; cbn; repeat split; reflexivity.
Qed.

(** C6: on a call that reaches the driver, every pre-fill precedes the
    first driver call and none follows it.  With [zero_tensors] set the
    memory handed to the driver holds negative infinity throughout the
    log-sum-exp buffer and zero throughout the context, the secondary
    context, the two scratch accumulators (allocated exactly when
    looping) and the diagnostic matrix (allocated exactly when
    requested); with the flag clear no pre-fill is made and these buffers
    are uninitialised.  The launch sees the memory as the configure call
    left it. *)
Theorem prefill_policy (w w' : World) (res : list Tensor) :
  fwd w = (inr res, w') ->
  exists (lp lp' : Launch_params) (mem : Memory) (before after : list Event),
    new_events w w'
    = before ++ EvKernel true lp mem :: after
             ++ [EvKernel false lp' (snd (fmha_kernel lp true mem))]
    /\ List.filter is_driver_or_rng before = []
    /\ List.filter is_prefill after = []
    /\ (if zero_tensors
        then True
        else List.filter is_prefill (new_events w w') = [])
    /\ let c := if zero_tensors then zero_contents else Uninitialized in
       let c_lse := if zero_tensors then Filled neg_infinity else Uninitialized in
       contents_of mem (Params.softmax_lse_ptr (Launch.params lp)) = Some c_lse
       /\ contents_of mem (Params.o_ptr (Launch.params lp)) = Some c
       /\ contents_of mem (Params.o2_ptr (Launch.params lp)) = Some c
       /\ contents_of mem (Params.o_tmp_ptr (Launch.params lp))
          = (if loop_ then Some c else None)
       /\ contents_of mem (Params.o2_tmp_ptr (Launch.params lp))
          = (if loop_ then Some c else None)
       /\ contents_of mem (Params.s_ptr (Launch.params lp))
          = (if return_softmax then Some c else None).
Proof.
  intros H. apply fwd_success_inv in H as (-> & -> & Hp).
  exists (lp_configure_ w), (lp_launch_ w), (memory_prepared_ w),
         (alloc_events qkvv cu_seqlens max_seq_len return_softmax w
          ++ prefill_events qkvv max_seq_len zero_tensors return_softmax w),
         (rng_events get_size_in_bytes set_alpha fmha_kernel
            qkvv cu_seqlens p_dropout max_seq_len softmax_scale
            zero_tensors is_causal return_softmax gen_ w).
  rewrite new_events_final.
  destruct (configure_params w Hp) as (-> & -> & -> & -> & -> & ->).
  split; [now rewrite <- !app_assoc|].
  case_flags; cbn [List.filter is_driver_or_rng is_prefill app];
    (split; [reflexivity|]); (split; [reflexivity|]); (split; [reflexivity|]);
    cbv zeta; unfold zero_contents;
    repeat split; read_memory.
Qed.

(** C7 (as amended): on a call that returns, the generator is touched
    exactly when dropout is enabled ([p_dropout > 0]).  Then its counter
    is reserved once, between taking and releasing the generator's mutex,
    after the configure call and before the launch, by the amount
    [elts_per_thread] that the configure call reported, and the launch
    receives the reserved state.  Otherwise the generator is neither
    locked nor advanced. *)
Theorem counter_reservation (w w' : World) (res : list Tensor) :
  fwd w = (inr res, w') ->
  exists (lp lp' : Launch_params) (mem mem' : Memory),
    let n := Launch.elts_per_thread (fst (fmha_kernel lp true mem)) in
    let r := philox_cuda_state_impl (generators w (gen gen_)) n in
    List.filter is_driver_or_rng (new_events w w')
    = EvKernel true lp mem
      :: (if dropout_enabled p_dropout
          then [EvLock (gen gen_); EvPhilox (gen gen_) n; EvUnlock (gen gen_)]
          else [])
      ++ [EvKernel false lp' mem']
    /\ generators w'
       = (if dropout_enabled p_dropout
          then <[gen gen_ := snd r]> (generators w)
          else generators w)
    /\ Params.philox_args (Launch.params lp')
       = (if dropout_enabled p_dropout
          then fst r
          else Params.philox_args (Launch.params (fst (fmha_kernel lp true mem)))).
Proof.
  intros H. apply fwd_success_inv in H as (-> & -> & Hp).
  exists (lp_configure_ w), (lp_launch_ w), (memory_prepared_ w), (snd (configured_ w)).
  rewrite new_events_final. cbv zeta.
  unfold world_final, lp_launch. cbn [generators].
  fold (configured_ w). fold (counter_offset_ w). fold (reserved_ w).
  case_flags; cbn [List.filter is_driver_or_rng app];
    repeat split; reflexivity.
Qed.

Lemma new_events_prepared (w : World) :
  new_events w (world_prepared_ w)
  = alloc_events qkvv cu_seqlens max_seq_len return_softmax w
    ++ prefill_events qkvv max_seq_len zero_tensors return_softmax w.
Proof. unfold new_events, world_prepared. cbn [log]. apply drop_app_length. Qed.

Lemma zero_disables_dropout :
  SFeqb p_dropout (float_of_Z 0) = true -> dropout_enabled p_dropout = false.
Proof.
  destruct p_dropout as [sg|sg| |sg m e]; intros H; try reflexivity;
    exfalso; revert H; cbn; try destruct sg; discriminate.
Qed.

(** C10: with [p_dropout == 0] a call never takes a generator's mutex and
    leaves every generator's state as it found it; its outcome, the
    memory it leaves and the calls it logs are the same whatever states
    (seeds and counter offsets) the generators are in. *)
Theorem no_dropout_ignores_generator (w : World) :
  SFeqb p_dropout (float_of_Z 0) = true ->
  generators (snd (fwd w)) = generators w
  /\ List.filter is_rng (new_events w (snd (fwd w))) = []
  /\ forall gens' : Generator -> CUDAGeneratorImpl,
       fst (fwd (set_generators gens' w)) = fst (fwd w)
       /\ memory (snd (fwd (set_generators gens' w))) = memory (snd (fwd w))
       /\ new_events (set_generators gens' w) (snd (fwd (set_generators gens' w)))
          = new_events w (snd (fwd w)).
Proof.
  intros Hz. apply zero_disables_dropout in Hz.
  assert (Hsame : forall gens', early_checks_ (set_generators gens' w) = early_checks_ w)
    by reflexivity.
  destruct (first_failure (early_checks_ w)) as [e|] eqn:He.
  - rewrite (fwd_early_failure w e He). cbn [fst snd].
    split; [reflexivity|]. unfold new_events at 1. rewrite drop_all.
    split; [reflexivity|]. intros gens'.
    rewrite (fwd_early_failure (set_generators gens' w) e) by (now rewrite Hsame).
    cbn [fst snd]. unfold new_events. now rewrite !drop_all.
  - rewrite (fwd_run w He).
    assert (Hrun : forall gens', fwd (set_generators gens' w)
              = if float_ltb p_dropout (float_of_Z 1)
                then (inr (result_ (set_generators gens' w)),
                      world_final_ (set_generators gens' w))
                else (inl InvalidDropoutProbability,
                      world_prepared_ (set_generators gens' w)))
      by (intros gens'; apply fwd_run; now rewrite Hsame).
    destruct (float_ltb p_dropout (float_of_Z 1)) eqn:Hp; cbn [fst snd].
    + split; [unfold world_final; cbn [generators]; now rewrite Hz|].
      split.
      * rewrite new_events_final. case_flags; try discriminate; reflexivity.
      * intros gens'. rewrite Hrun. cbn [fst snd].
        split; [reflexivity|].
        unfold new_events, world_final, launched, lp_launch, rng_events.
        rewrite Hz. cbn [memory log set_generators]. split; reflexivity.
    + split; [reflexivity|]. split.
      * rewrite new_events_prepared. case_flags; reflexivity.
      * intros gens'. rewrite Hrun. cbn [fst snd]. repeat split; reflexivity.
Qed.

End ForwardFacts.

(** ** Parameter setup *)

Lemma SFcompare_antisym (x y : spec_float) :
  SFcompare y x = option_map CompOpp (SFcompare x y).
Proof.
  destruct x as [sx|sx| |sx mx ex], y as [sy|sy| |sy my ey]; cbn;
    try reflexivity;
    try (destruct sx; reflexivity); try (destruct sy; reflexivity);
    try (destruct sx, sy; reflexivity).
  destruct sx, sy; try reflexivity; f_equal;
    rewrite (Z.compare_antisym ex ey);
    destruct (ex ?= ey)%Z; cbn; try reflexivity;
    rewrite <- (Pos.compare_cont_antisym _ _ Eq); cbn;
    try reflexivity; now rewrite CompOpp_involutive.
Qed.

Lemma SFleb_not_ltb (x y : spec_float) :
  SFleb x y = true -> SFltb y x = false.
Proof.
  unfold SFleb, SFltb. rewrite (SFcompare_antisym x y).
  destruct (SFcompare x y) as [[]|]; cbn; congruence.
Qed.

Section SetParamsFacts.

Context (get_size_in_bytes : Z -> Data_type -> Z).
Context (set_alpha : spec_float -> Data_type -> Z).

(** C5: [set_params] succeeds exactly on [p_dropout < 1]; it then stores
    the keep probability [1 - p_dropout], its reciprocal as the rescale
    factor, the caller's softmax scale as [scale_bmm1], unit
    [scale_softmax] and [scale_bmm2], and the rescale factor as
    [scale_dropout], the scales in the encoding of [set_alpha].  On
    [p_dropout >= 1] it fails with [InvalidDropoutProbability]. *)
Theorem set_params_scales
    (b s h d : Z)
    (qkv_packed_d cu_seqlens_d o_packed_d o_tmp_d do_packed_d s_d
     softmax_lse_d dsoftmax_sum_d : option ptr)
    (p_dropout softmax_scale : spec_float) (is_causal : bool)
    (o2_tmp_d o2_packed_d : option ptr) :
  let r := set_params get_size_in_bytes set_alpha b s h d
             qkv_packed_d cu_seqlens_d o_packed_d o_tmp_d do_packed_d s_d
             softmax_lse_d dsoftmax_sum_d p_dropout softmax_scale is_causal
             o2_tmp_d o2_packed_d in
  (float_ltb p_dropout (float_of_Z 1) = true ->
   exists prm,
     r = inr prm
     /\ Params.p_dropout prm = float_sub (float_of_Z 1) p_dropout
     /\ Params.rp_dropout prm = float_div (float_of_Z 1) (Params.p_dropout prm)
     /\ Params.scale_bmm1f prm = softmax_scale
     /\ Params.scale_bmm1 prm = set_alpha softmax_scale DATA_TYPE_FP16
     /\ Params.scale_softmax prm = set_alpha (float_of_Z 1) DATA_TYPE_FP32
     /\ Params.scale_bmm2 prm = set_alpha (float_of_Z 1) DATA_TYPE_FP16
     /\ Params.scale_dropout prm = set_alpha (Params.rp_dropout prm) DATA_TYPE_FP16)
  /\ (SFleb (float_of_Z 1) p_dropout = true -> r = inl InvalidDropoutProbability).
Proof.
  cbv zeta. unfold set_params. split.
  - intros ->. eexists. split; [reflexivity|]. cbn. repeat split; reflexivity.
  - intros Hge. apply SFleb_not_ltb in Hge. unfold float_ltb. now rewrite Hge.
Qed.

End SetParamsFacts.

(** ** The dropout thresholds *)

Lemma float_one : float_of_Z 1 = S754_finite false 8388608 (-23).
Proof. reflexivity. Qed.

Lemma bounded_inv (prec emax : Z) (m : positive) (e : Z) :
  bounded prec emax m e = true ->
  fexp prec emax (Zpos (digits2_pos m) + e) = e /\ e <= emax - prec.
Proof.
  unfold bounded, canonical_mantissa.
  rewrite andb_true_iff, Z.eqb_eq, Z.leb_le. tauto.
Qed.

Lemma shl_align_down (m : positive) (e e' : Z) :
  e' < e ->
  exists m' : positive,
    shl_align m e e' = (m', e') /\ Zpos m' = Zpos m * 2 ^ (e - e').
Proof.
  intros H. unfold shl_align.
  destruct (e' - e) as [|p|p] eqn:Hk; try lia.
  exists (shift_pos p m). split; [reflexivity|].
  rewrite shift_pos_correct, Zpower_pos_nat, Zpower_nat_Z, positive_nat_Z.
  replace (e - e') with (Zpos p) by lia. lia.
Qed.

Lemma shl_align_same (m : positive) (e : Z) : shl_align m e e = (m, e).
Proof. unfold shl_align. now rewrite Z.sub_diag. Qed.

(** A dropout probability in [[0, 1)] leaves a keep probability in
    [(0, 1]]: a positive finite binary32 value [mk * 2^ek] with
    [mk <= 2^(-ek)]. *)
Lemma keep_probability_range (p : spec_float) :
  is_float p ->
  SFleb (float_of_Z 0) p = true ->
  float_ltb p (float_of_Z 1) = true ->
  exists (mk : positive) (ek : Z),
    keep_probability p = S754_finite false mk ek
    /\ bounded 24 128 mk ek = true /\ ek <= 0 /\ Zpos mk <= 2 ^ (- ek).
Proof.
  unfold is_float, keep_probability, float_sub, float_ltb. rewrite float_one.
  change (float_of_Z 0) with (S754_zero false).
  intros Hv Hge Hlt.
  destruct p as [sp|sp| |sp m e].
  - exists 8388608%positive, (-23). cbn. repeat split; lia.
  - destruct sp; discriminate.
  - discriminate.
  - destruct sp; [discriminate Hge|].
    cbn in Hv. apply bounded_inv in Hv as [Hc He].
    pose proof (digits2_pos_bounds m) as [Dlo Dhi].
    unfold SFltb, SFcompare in Hlt.
    assert (Hcmp : e < -23 \/ (e = -23 /\ Zpos m < 8388608)).
    { clear - Hlt.
      destruct (e ?= -23) eqn:E; try discriminate.
      - right. split; [now apply Z.compare_eq|].
        destruct (PosDef.Pos.compare_cont Eq m 8388608) eqn:C; try discriminate.
        exact C.
      - left. exact (proj1 (Z.compare_lt_iff e (-23)) E). }
    assert (He24 : e <= -24).
    { destruct Hcmp as [?|[E C]]; [lia|exfalso].
      assert (D24 : Zpos (digits2_pos m) = 24) by (unfold fexp, emin in Hc; lia).
      rewrite D24 in Dlo. change (2 ^ (24 - 1)) with 8388608 in Dlo. lia. }
    clear Hlt Hge.
    assert (Hemin : -149 <= e) by (unfold fexp, emin in Hc; lia).
    assert (Hd24 : Zpos (digits2_pos m) <= 24) by (unfold fexp, emin in Hc; lia).
    unfold SFsub. cbv zeta. replace (Z.min (-23) e) with e by lia.
    destruct (shl_align_down 8388608 (-23) e ltac:(lia)) as (m1 & -> & Hm1).
    rewrite shl_align_same. cbn [fst cond_Zopp].
    assert (Hm1' : Zpos m1 = 2 ^ (- e)).
    { rewrite Hm1. change (Zpos 8388608) with (2 ^ 23).
      rewrite <- pow2_split by lia. f_equal. lia. }
    assert (Hm_lt : Zpos m < 2 ^ 24).
    { eapply Z.lt_le_trans; [exact Dhi|]. apply Z.pow_le_mono_r; lia. }
    assert (H24 : 2 ^ 24 <= 2 ^ (- e)) by (apply Z.pow_le_mono_r; lia).
    destruct (Zpos m1 - Zpos m) as [|M|M] eqn:HM; try lia.
    cbn [binary_normalize].
    pose proof (digits2_pos_bounds M) as [Mlo Mhi].
    remember (Zpos (digits2_pos M)) as dM eqn:EdM.
    assert (HdM : 1 <= dM) by lia.
    assert (HMe : Zpos M < 2 ^ (- e)) by lia.
    destruct (Z.le_gt_cases dM 24) as [Hcase|Hcase].
    + assert (E24 : e = -24).
      { assert (2 ^ dM <= 2 ^ 24) by (apply Z.pow_le_mono_r; lia).
        assert (Hlt25 : 2 ^ (- e) < 2 ^ 25) by (change (2 ^ 25) with (2 ^ 24 + 2 ^ 24); lia).
        apply Z.pow_lt_mono_r_iff in Hlt25; lia. }
      destruct (binary_round_pads 24 128 ltac:(lia) false M e) as (m' & -> & Hv & Hdig);
        rewrite <- ?EdM; try (unfold emin; lia).
      rewrite <- EdM in Hv.
      exists m', (e - (24 - dM)). split; [reflexivity|]. split; [|split; [lia|]].
      * unfold bounded, canonical_mantissa. rewrite Hdig.
        apply andb_true_iff. split; [apply Z.eqb_eq|apply Z.leb_le]; unfold fexp, emin; lia.
      * rewrite Hv. replace (- (e - (24 - dM))) with (- e + (24 - dM)) by lia.
        rewrite pow2_split by lia.
        apply Z.mul_le_mono_nonneg_r; [|lia].
        pose proof (pow2_pos (24 - dM) ltac:(lia)). lia.
    + assert (HdMe : dM <= - e).
      { assert (Hlt : 2 ^ (dM - 1) < 2 ^ (- e)) by lia.
        apply Z.pow_lt_mono_r_iff in Hlt; lia. }
      rewrite binary_round_long by (rewrite <- ?EdM; unfold emin; lia).
      destruct (round_aux_cut 24 128 ltac:(lia) false M e)
        as (m2 & e2 & -> & Hb & Hle & Hval & _);
        rewrite <- ?EdM; try (unfold emin; lia).
      rewrite <- EdM in Hle, Hval.
      exists m2, e2. split; [reflexivity|]. split; [exact Hb|].
      remember (dM - 24) as k eqn:Ek.
      pose proof (pow2_pos k ltac:(lia)) as Hk.
      pose proof (pow2_pos (e2 - e) ltac:(lia)) as Hke.
      assert (Esplit : 2 ^ (- e) = 2 ^ (- e - k) * 2 ^ k)
        by (rewrite <- pow2_split by lia; f_equal; lia).
      assert (Hq : Zpos M / 2 ^ k + 1 <= 2 ^ (- e - k)).
      { assert (Zpos M / 2 ^ k < 2 ^ (- e - k)); [|lia].
        apply Z.div_lt_upper_bound; [lia|]. rewrite Z.mul_comm, <- Esplit. exact HMe. }
      assert (HV : Zpos m2 * 2 ^ (e2 - e) <= 2 ^ (- e)).
      { rewrite Esplit.
        assert (0 <= Zpos M / 2 ^ k) by (apply Z.div_pos; lia).
        destruct Hval as [-> | ->]; apply Z.mul_le_mono_nonneg_r; lia. }
      assert (He2 : e2 <= 0).
      { destruct (Z.le_gt_cases e2 0) as [?|Hpos]; [assumption|exfalso].
        assert (Hlt : 2 ^ (- e) < 2 ^ (e2 - e)) by (apply Z.pow_lt_mono_r; lia).
        nia. }
      split; [exact He2|].
      assert (Esplit2 : 2 ^ (- e) = 2 ^ (- e2) * 2 ^ (e2 - e))
        by (rewrite <- pow2_split by lia; f_equal; lia).
      rewrite Esplit2 in HV.
      apply Z.mul_le_mono_pos_r in HV; lia.
Qed.

Lemma bounded_binary32_range (mk : positive) (ek : Z) :
  bounded 24 128 mk ek = true ->
  Zpos (digits2_pos mk) <= 24 /\ -149 <= ek <= 104.
Proof.
  intros Hb. apply bounded_inv in Hb as [Hc ?].
  unfold fexp, emin in Hc. lia.
Qed.

(** Promotion to [double] keeps the value and fills the 53-bit mantissa. *)
Lemma float_to_double_finite (s : bool) (mk : positive) (ek : Z) :
  bounded 24 128 mk ek = true ->
  exists m3 : positive,
    float_to_double (S754_finite s mk ek)
    = S754_finite s m3 (ek - (53 - Zpos (digits2_pos mk)))
    /\ Zpos m3 = Zpos mk * 2 ^ (53 - Zpos (digits2_pos mk))
    /\ Zpos (digits2_pos m3) = 53.
Proof.
  intros Hb. apply bounded_binary32_range in Hb as [Hd He].
  pose proof (digits2_pos_bounds mk) as [_ _].
  assert (0 < Zpos (digits2_pos mk)) by lia.
  cbn [float_to_double].
  apply (binary_round_pads 53 1024 ltac:(lia) s mk ek); cbv zeta; unfold emin; lia.
Qed.

(** The floor of [keep * c] as the code computes it: the product is
    rounded to 53 bits, so it is one of the two neighbours [V] of the
    exact product [P] on the grid of step [2^k]; the floor is exact on
    that neighbour. *)
Lemma floor_of_scaled_keep (mk : positive) (ek : Z) (c : positive) (ec : Z) :
  bounded 24 128 mk ek = true -> ek <= 0 ->
  Zpos (digits2_pos c) = 53 -> -100 <= ec <= 0 ->
  let dk := Zpos (digits2_pos mk) in
  let P := Zpos mk * 2 ^ (53 - dk) * Zpos c in
  exists k V : Z,
    2 ^ (k + 52) <= P < 2 ^ (k + 53) /\ 52 <= k <= 53
    /\ (V = P / 2 ^ k * 2 ^ k \/ V = (P / 2 ^ k + 1) * 2 ^ k)
    /\ (P mod 2 ^ k = 0 -> V = P)
    /\ std_floor (double_mul (float_to_double (S754_finite false mk ek))
                             (S754_finite false c ec))
       = binary_normalize 53 1024 (V / 2 ^ (53 - dk - ec - ek)) 0 false.
Proof.
  intros Hb Hek Hdc Hec. cbv zeta.
  destruct (float_to_double_finite false mk ek Hb) as (m3 & -> & Hm3 & Hd3).
  apply bounded_binary32_range in Hb as [Hdk Hemin].
  remember (Zpos (digits2_pos mk)) as dk eqn:Edk.
  assert (Hdk1 : 1 <= dk) by lia.
  rewrite <- Hm3. change (Zpos m3 * Zpos c) with (Zpos (m3 * c)).
  unfold double_mul, SFmul. cbn [xorb].
  pose proof (digits2_pos_bounds m3) as [L3 U3]. rewrite Hd3 in L3, U3.
  pose proof (digits2_pos_bounds c) as [Lc Uc]. rewrite Hdc in Lc, Uc.
  pose proof (digits2_pos_bounds (m3 * c)) as [LP UP].
  remember (Zpos (digits2_pos (m3 * c))) as dP eqn:EdP.
  assert (HPlo : 2 ^ 104 <= Zpos (m3 * c)).
  { change (2 ^ 104) with (2 ^ (53 - 1) * 2 ^ (53 - 1)). rewrite Pos2Z.inj_mul.
    apply Z.mul_le_mono_nonneg; lia. }
  assert (HPhi : Zpos (m3 * c) < 2 ^ 106).
  { change (2 ^ 106) with (2 ^ 53 * 2 ^ 53). rewrite Pos2Z.inj_mul.
    apply Z.mul_lt_mono_nonneg; lia. }
  assert (HdP : 105 <= dP <= 106).
  { assert (H1 : 2 ^ 104 < 2 ^ dP) by lia.
    assert (H2 : 2 ^ (dP - 1) < 2 ^ 106) by lia.
    apply Z.pow_lt_mono_r_iff in H1; [|lia|lia].
    apply Z.pow_lt_mono_r_iff in H2; lia. }
  destruct (round_aux_cut 53 1024 ltac:(lia) false (m3 * c) (ek - (53 - dk) + ec))
    as (m2 & e2 & -> & _ & Hle & Hval & Hexact);
    rewrite <- ?EdP; try (unfold emin; lia).
  rewrite <- EdP in Hle, Hval, Hexact.
  exists (dP - 53), (Zpos m2 * 2 ^ (e2 - (ek - (53 - dk) + ec))).
  replace (dP - 53 + 52) with (dP - 1) by lia.
  replace (dP - 53 + 53) with dP by lia.
  split; [lia|]. split; [lia|]. split; [exact Hval|]. split; [exact Hexact|].
  cbn [std_floor Zfloor cond_Zopp]. f_equal.
  rewrite (shiftl_rescale (Zpos m2) e2 (ek - (53 - dk) + ec)) by lia.
  f_equal. f_equal. lia.
Qed.
(** Floors agree when nothing of the coarse grid lies between. *)
Lemma neighbour_floor_grid (P V G K g Q qK : Z) :
  0 < K -> 0 < g -> G = g * K ->
  G * Q <= P < G * (Q + 1) ->
  K * qK <= P < K * (qK + 1) ->
  (V = qK * K \/ V = (qK + 1) * K) ->
  P + K < G * (Q + 1) ->
  G * Q <= V < G * (Q + 1).
Proof.
  intros HK Hg -> [HQ1 HQ2] [Hq1 Hq2] HV Hup.
  assert (Hlow : g * Q <= qK).
  { assert (K * (g * Q) < K * (qK + 1)) by lia.
    apply Z.mul_lt_mono_pos_l in H; lia. }
  assert (g * K * Q <= qK * K).
  { replace (g * K * Q) with (g * Q * K) by ring.
    apply Z.mul_le_mono_nonneg_r; lia. }
  destruct HV as [-> | ->]; lia.
Qed.

Lemma neighbour_floor (mk a t k w V : Z) :
  0 < mk -> 0 <= a -> 0 <= t -> 0 <= k -> 0 <= w ->
  mk <= 2 ^ a -> mk <= 2 ^ w -> k <= t + a -> 2 ^ k < mk * 2 ^ t ->
  (V = mk * (2 ^ w - 1) * 2 ^ t / 2 ^ k * 2 ^ k
   \/ V = (mk * (2 ^ w - 1) * 2 ^ t / 2 ^ k + 1) * 2 ^ k) ->
  V / 2 ^ (t + a) = mk * (2 ^ w - 1) / 2 ^ a.
Proof.
  intros Hmk Ha Ht Hk Hw Hma Hmw Hkta Hkm HV.
  pose proof (pow2_pos a Ha) as HA. pose proof (pow2_pos t Ht) as HT.
  pose proof (pow2_pos k Hk) as HK. pose proof (pow2_pos w Hw) as HW.
  remember (Z.min a w) as u eqn:Eu.
  assert (Hu : 0 <= u) by lia.
  pose proof (pow2_pos u Hu) as HU.
  assert (Hmu : mk <= 2 ^ u).
  { destruct (Z.min_spec a w) as [[_ E]|[_ E]]; rewrite Eu, E; assumption. }
  assert (EG : 2 ^ (t + a) = 2 ^ a * 2 ^ t)
    by (rewrite <- pow2_split by lia; f_equal; lia).
  assert (EGK : 2 ^ (t + a) = 2 ^ (t + a - k) * 2 ^ k)
    by (rewrite <- pow2_split by lia; f_equal; lia).
  assert (EGH : 2 ^ (t + a) = 2 ^ (a - u) * (2 ^ t * 2 ^ u))
    by (rewrite <- !pow2_split by lia; f_equal; lia).
  assert (EW : 2 ^ w = 2 ^ (w - u) * 2 ^ u)
    by (rewrite <- pow2_split by lia; f_equal; lia).
  pose proof (pow2_pos (t + a - k) ltac:(lia)) as Hg.
  pose proof (pow2_pos (a - u) ltac:(lia)) as Hga.
  pose proof (pow2_pos (w - u) ltac:(lia)) as Hwu.
  pose proof (pow2_pos (t + a) ltac:(lia)) as HG.
  rewrite <- (Z.div_mul_cancel_r (mk * (2 ^ w - 1)) (2 ^ a) (2 ^ t)) by lia.
  rewrite <- EG.
  remember (mk * (2 ^ w - 1) * 2 ^ t) as P eqn:EP.
  remember (2 ^ (t + a)) as G eqn:EGdef.
  remember (2 ^ k) as K. remember (2 ^ t) as T. remember (2 ^ u) as U.
  remember (2 ^ (t + a - k)) as g. remember (2 ^ (a - u)) as ga.
  remember (2 ^ (w - u)) as wu. remember (2 ^ w) as W. remember (2 ^ a) as A.
  pose proof (Z.mul_div_le P G HG) as HQ1.
  pose proof (Z.mul_succ_div_gt P G HG) as HQ2. unfold Z.succ in HQ2.
  pose proof (Z.mul_div_le P K HK) as Hq1.
  pose proof (Z.mul_succ_div_gt P K HK) as Hq2. unfold Z.succ in Hq2.
  remember (P / G) as Q. remember (P / K) as qK.
  assert (Hup : P + K < G * (Q + 1)).
  { assert (HY : P + mk * T = (mk * wu) * (T * U)) by (rewrite EP, EW; ring).
    assert (HmT : mk * T <= T * U) by (rewrite (Z.mul_comm T U); apply Z.mul_le_mono_nonneg_r; lia).
    assert (Hc : mk * wu - 1 < ga * (Q + 1)).
    { apply (Z.mul_lt_mono_pos_l (T * U)); [lia|].
      replace (T * U * (ga * (Q + 1))) with (G * (Q + 1)) by (rewrite EGH; ring).
      replace (T * U * (mk * wu - 1)) with (mk * wu * (T * U) - T * U) by ring.
      lia. }
    assert (HYG : mk * wu * (T * U) <= G * (Q + 1)).
    { rewrite EGH. replace (ga * (T * U) * (Q + 1)) with (ga * (Q + 1) * (T * U)) by ring.
      apply Z.mul_le_mono_nonneg_r; lia. }
    lia. }
  pose proof (neighbour_floor_grid P V G K g Q qK HK Hg EGK
                (conj HQ1 HQ2) (conj Hq1 Hq2) HV Hup) as [Hlo Hhi].
  symmetry. apply Z.div_unique with (r := V - G * Q); lia.
Qed.

Lemma double_4294967295 :
  double_of_Z 4294967295 = S754_finite false 9007199252643840 (-21).
Proof. vm_compute. reflexivity. Qed.

Lemma double_65535 :
  double_of_Z 65535 = S754_finite false 9007061815787520 (-37).
Proof. vm_compute. reflexivity. Qed.

(** The mantissa of a keep probability has at most [-ek + 1] digits. *)
Lemma keep_digits (mk : positive) (ek : Z) :
  ek <= 0 -> Zpos mk <= 2 ^ (- ek) -> Zpos (digits2_pos mk) - 1 <= - ek.
Proof.
  intros Hek Hmk. pose proof (digits2_pos_bounds mk) as [Dlo _].
  assert (H : 2 ^ (Zpos (digits2_pos mk) - 1) <= 2 ^ (- ek)) by lia.
  apply Z.pow_le_mono_r_iff in H; lia.
Qed.

(** The 32-bit threshold of a keep probability [mk * 2^ek] in [(0, 1]]. *)
Lemma threshold_uint_value (mk : positive) (ek : Z) :
  bounded 24 128 mk ek = true -> ek <= 0 -> Zpos mk <= 2 ^ (- ek) ->
  threshold_uint (S754_finite false mk ek) = Zpos mk * 4294967295 / 2 ^ (- ek).
Proof.
  intros Hb Hek Hmk. unfold threshold_uint. rewrite double_4294967295.
  destruct (floor_of_scaled_keep mk ek 9007199252643840 (-21) Hb Hek
              ltac:(reflexivity) ltac:(lia))
    as (k & V & HP & Hk & HV & _ & ->).
  pose proof (keep_digits mk ek Hek Hmk) as Hdig.
  apply bounded_binary32_range in Hb as [Hd24 Hrange].
  pose proof (digits2_pos_bounds mk) as [Dlo Dhi].
  remember (Zpos (digits2_pos mk)) as dk eqn:Edk.
  assert (Hdk1 : 1 <= dk) by lia.
  pose proof (pow2_pos (- ek) ltac:(lia)) as HA.
  pose proof (pow2_pos (53 - dk + 21) ltac:(lia)) as HT.
  pose proof (pow2_pos k ltac:(lia)) as HK.
  assert (EP : Zpos mk * 2 ^ (53 - dk) * 9007199252643840
               = Zpos mk * (2 ^ 32 - 1) * 2 ^ (53 - dk + 21)).
  { rewrite pow2_split by lia. change 9007199252643840 with ((2 ^ 32 - 1) * 2 ^ 21). ring. }
  rewrite EP in HP, HV.
  assert (HF : V / 2 ^ (53 - dk - -21 - ek) = Zpos mk * (2 ^ 32 - 1) / 2 ^ (- ek)).
  { replace (53 - dk - -21 - ek) with (53 - dk + 21 + - ek) by lia.
    apply neighbour_floor with (k := k); try lia.
    - assert (2 ^ dk <= 2 ^ 32) by (apply Z.pow_le_mono_r; lia). lia.
    - destruct HP as [HPlo _].
      rewrite pow2_split in HPlo by lia.
      assert (2 ^ 32 <= 2 ^ 52) by (apply Z.pow_le_mono_r; lia).
      assert (H32 : 0 < 2 ^ 32) by (apply pow2_pos; lia).
      apply (Z.mul_lt_mono_pos_r (2 ^ 32)); [assumption|]. nia. }
  rewrite HF.
  assert (Hrng : 0 <= Zpos mk * (2 ^ 32 - 1) / 2 ^ (- ek) <= 2 ^ 32 - 1).
  { split; [apply Z.div_pos; lia|].
    apply Z.div_le_upper_bound; [lia|].
    apply Z.mul_le_mono_nonneg_r; lia. }
  unfold double_to_uint32_t.
  rewrite Ztrunc_normalize by (change (2 ^ 53) with 9007199254740992; lia).
  unfold to_uint32_t, wrap_unsigned. rewrite Z.mod_small by lia. reflexivity.
Qed.

(** The 16-bit threshold: here the double product is exact. *)
Lemma threshold_uint16_t_value (mk : positive) (ek : Z) :
  bounded 24 128 mk ek = true -> ek <= 0 -> Zpos mk <= 2 ^ (- ek) ->
  threshold_uint16_t (S754_finite false mk ek) = Zpos mk * 65535 / 2 ^ (- ek).
Proof.
  intros Hb Hek Hmk. unfold threshold_uint16_t. rewrite double_65535.
  destruct (floor_of_scaled_keep mk ek 9007061815787520 (-37) Hb Hek
              ltac:(reflexivity) ltac:(lia))
    as (k & V & _ & Hk & _ & Hexact & ->).
  apply bounded_binary32_range in Hb as [Hd24 Hrange].
  pose proof (digits2_pos_bounds mk) as [Dlo Dhi].
  remember (Zpos (digits2_pos mk)) as dk eqn:Edk.
  assert (Hdk1 : 1 <= dk) by lia.
  pose proof (pow2_pos (- ek) ltac:(lia)) as HA.
  pose proof (pow2_pos (53 - dk + 37) ltac:(lia)) as HT.
  pose proof (pow2_pos k ltac:(lia)) as HK.
  assert (EP : Zpos mk * 2 ^ (53 - dk) * 9007061815787520
               = Zpos mk * 65535 * 2 ^ (53 - dk + 37)).
  { rewrite pow2_split by lia. change 9007061815787520 with (65535 * 2 ^ 37). ring. }
  rewrite EP in Hexact.
  assert (HVP : V = Zpos mk * 65535 * 2 ^ (53 - dk + 37)).
  { apply Hexact.
    replace (53 - dk + 37) with (53 - dk + 37 - k + k) by lia.
    rewrite pow2_split, Z.mul_assoc by lia. apply Z.mod_mul. lia. }
  assert (HF : V / 2 ^ (53 - dk - -37 - ek) = Zpos mk * 65535 / 2 ^ (- ek)).
  { rewrite HVP. replace (53 - dk - -37 - ek) with (- ek + (53 - dk + 37)) by lia.
    rewrite (pow2_split (- ek) (53 - dk + 37)) by lia.
    apply Z.div_mul_cancel_r; lia. }
  rewrite HF.
  assert (Hrng : 0 <= Zpos mk * 65535 / 2 ^ (- ek) <= 65535).
  { split; [apply Z.div_pos; lia|].
    apply Z.div_le_upper_bound; [lia|].
    apply Z.mul_le_mono_nonneg_r; lia. }
  unfold double_to_uint16_t.
  rewrite Ztrunc_normalize by (change (2 ^ 53) with 9007199254740992; lia).
  unfold to_uint16_t, wrap_unsigned. rewrite Z.mod_small by (change (2 ^ 16) with 65536; lia).
  reflexivity.
Qed.

Section ThresholdFacts.

Context (get_size_in_bytes : Z -> Data_type -> Z).
Context (set_alpha : spec_float -> Data_type -> Z).

(** C4 (amended): for every single-precision [p_dropout] in [[0, 1)],
    [set_params] succeeds and stores, next to the keep probability
    [keep = 1.f - p_dropout] (rounded to single precision), the integer
    thresholds [floor (keep * (2^32 - 1))] for the 32-bit draw and
    [floor (keep * (2^16 - 1))] for the 16-bit draw, the products and
    floors being exact: the scale factors are [4294967295] and [65535],
    not [2^32] and [2^16]. *)
Theorem thresholds_round_down
    (b s h d : Z)
    (qkv_packed_d cu_seqlens_d o_packed_d o_tmp_d do_packed_d s_d
     softmax_lse_d dsoftmax_sum_d : option ptr)
    (p_dropout softmax_scale : spec_float) (is_causal : bool)
    (o2_tmp_d o2_packed_d : option ptr) :
  is_float p_dropout ->
  SFleb (float_of_Z 0) p_dropout = true ->
  float_ltb p_dropout (float_of_Z 1) = true ->
  exists prm,
    set_params get_size_in_bytes set_alpha b s h d
      qkv_packed_d cu_seqlens_d o_packed_d o_tmp_d do_packed_d s_d
      softmax_lse_d dsoftmax_sum_d p_dropout softmax_scale is_causal
      o2_tmp_d o2_packed_d = inr prm
    /\ Params.p_dropout prm = float_sub (float_of_Z 1) p_dropout
    /\ Params.p_dropout_in_uint prm
       = Qfloor (to_Q (Params.p_dropout prm) * inject_Z (2 ^ 32 - 1))
    /\ Params.p_dropout_in_uint16_t prm
       = Qfloor (to_Q (Params.p_dropout prm) * inject_Z (2 ^ 16 - 1)).
Proof.
  intros Hfl Hge Hlt.
  destruct (keep_probability_range p_dropout Hfl Hge Hlt)
    as (mk & ek & Hkeep & Hb & Hek & Hmk).
  unfold set_params. rewrite Hlt. eexists. split; [reflexivity|].
  cbn [Params.p_dropout Params.p_dropout_in_uint Params.p_dropout_in_uint16_t].
  split; [reflexivity|].
  fold (keep_probability p_dropout). rewrite Hkeep.
  cbn [to_Q cond_Zopp]. rewrite !Qfloor_dyadic by exact Hek.
  split; [apply threshold_uint_value|apply threshold_uint16_t_value]; assumption.
Qed.

End ThresholdFacts.

(** ** The properties on concrete calls *)

(** C2 as stated fails: a contiguous 4-dimensional QKV whose third axis is
    3 is rejected at the third-axis check. *)
Lemma packed_count_three_rejected :
  dim Sample.qkv_three = 4
  /\ is_contiguous Sample.qkv_three = true
  /\ size_at Sample.qkv_three THREE_DIM = 3
  /\ fst (Sample.fwd Sample.qkv_three Sample.offsets Sample.f_zero 8 false false
            (Sample.world 8))
     = inl PackedCountMismatch.
Proof.
  split; [reflexivity|]. split; [reflexivity|]. split; [reflexivity|].
  vm_compute. reflexivity.
Qed.

(** C3 as stated fails: offsets that decrease, and that declare 3 tokens
    for a buffer of 8, are not rejected; the call runs to the end. *)
Lemma unsorted_offsets_accepted :
  contents_at (memory (Sample.world 8)) (data_ptr Sample.offsets_unsorted)
  = Some (Ints [0; 5; 3])
  /\ ~ offsets_monotone [0; 5; 3]
  /\ declared_total [0; 5; 3] <> size_at Sample.qkv TOTAL_DIM
  /\ exists res,
       fst (Sample.fwd Sample.qkv Sample.offsets_unsorted Sample.f_zero 8 false false
              (Sample.world 8))
       = inr res.
Proof.
  split; [reflexivity|]. split; [cbn; lia|]. split; [cbn; lia|].
  eexists. vm_compute. reflexivity.
Qed.

(** C7 as stated fails: a call with [p_dropout = 0] returns without any
    counter reservation, and the generator keeps its offset. *)
Lemma no_reservation_without_dropout :
  let r := Sample.fwd Sample.qkv Sample.offsets Sample.f_zero 8 false false
             (Sample.world 8) in
  (exists res, fst r = inr res)
  /\ List.filter is_reservation (new_events (Sample.world 8) (snd r)) = []
  /\ philox_offset_per_thread_ (generators (snd r) getDefaultCUDAGenerator) = 0.
Proof.
  cbv zeta. split; [eexists; vm_compute; reflexivity|]. split; vm_compute; reflexivity.
Qed.

(** C9 as stated fails: on a device of major version 7 the entry point
    itself rejects an otherwise valid call. *)
Lemma older_device_rejected :
  fst (Sample.fwd Sample.qkv Sample.offsets Sample.f_zero 8 false false (Sample.world 7))
  = inl DeviceCapabilityUnsupported
  /\ (exists res,
        fst (Sample.fwd Sample.qkv Sample.offsets Sample.f_zero 8 false false
               (Sample.world 8))
        = inr res).
Proof.
  split; [vm_compute; reflexivity|]. eexists. vm_compute. reflexivity.
Qed.

Lemma set_params_scales_witness :
  (exists prm,
     set_params Sample.get_size_in_bytes Sample.set_alpha 2 128 1 16
       (Some 0%nat) (Some 1%nat) (Some 3%nat) None None None (Some 5%nat) None
       Sample.f_half Sample.f_half false None (Some 4%nat) = inr prm
     /\ Params.p_dropout prm = Sample.f_half
     /\ Params.rp_dropout prm = S754_finite false 8388608 (-22))
  /\ set_params Sample.get_size_in_bytes Sample.set_alpha 2 128 1 16
       (Some 0%nat) (Some 1%nat) (Some 3%nat) None None None (Some 5%nat) None
       Sample.f_one Sample.f_half false None (Some 4%nat)
     = inl InvalidDropoutProbability.
Proof.
  split.
  - destruct (set_params_scales Sample.get_size_in_bytes Sample.set_alpha 2 128 1 16
                (Some 0%nat) (Some 1%nat) (Some 3%nat) None None None (Some 5%nat) None
                Sample.f_half Sample.f_half false None (Some 4%nat)) as [Hok _].
    destruct (Hok eq_refl) as (prm & Hr & Hk & Hrp & _).
    exists prm. split; [exact Hr|]. split; [exact Hk|].
    rewrite Hrp, Hk. vm_compute. reflexivity.
  - apply (set_params_scales Sample.get_size_in_bytes Sample.set_alpha 2 128 1 16
             (Some 0%nat) (Some 1%nat) (Some 3%nat) None None None (Some 5%nat) None
             Sample.f_one Sample.f_half false None (Some 4%nat)).
    reflexivity.
Defined.

Lemma result_collection_witness :
  exists (ctx ctx2 softmax_lse s : Tensor) (lp : Launch_params) (mem : Memory)
         (ev : list Event),
    Sample.run_result = [ctx; ctx2; softmax_lse] ++ (if true then [s] else [])
    /\ sizes ctx = [total Sample.qkv; num_heads Sample.qkv; head_size Sample.qkv]
    /\ sizes ctx2 = [total Sample.qkv; num_heads Sample.qkv; head_size Sample.qkv]
    /\ sizes softmax_lse
       = [batch_size Sample.offsets; num_heads Sample.qkv; seq_len Sample.qkv 300]
    /\ sizes s
       = [batch_size Sample.offsets; num_heads Sample.qkv; seq_len Sample.qkv 300;
          seq_len Sample.qkv 300]
    /\ List.filter is_driver_or_rng (new_events (Sample.world 8) (snd Sample.run))
       = EvKernel true lp mem :: ev
    /\ Params.o_ptr (Launch.params lp) = Some (data_ptr ctx)
    /\ Params.o2_ptr (Launch.params lp) = Some (data_ptr ctx2)
    /\ Params.softmax_lse_ptr (Launch.params lp) = Some (data_ptr softmax_lse)
    /\ Params.s_ptr (Launch.params lp) = (if true then Some (data_ptr s) else None)
    /\ omap alloc_shape (new_events (Sample.world 8) (snd Sample.run))
       = [sizes ctx; sizes ctx2]
         ++ (if loop Sample.qkv 300 then [sizes ctx; sizes ctx2] else [])
         ++ [sizes softmax_lse]
         ++ (if true then [sizes s] else []).
Proof.
  apply (result_collection Sample.get_size_in_bytes Sample.set_alpha Sample.kernel
           Sample.philox Sample.qkv Sample.offsets Sample.f_half 300 Sample.f_half
           true false true None (Sample.world 8) (snd Sample.run) Sample.run_result).
  vm_compute. reflexivity.
Defined.

Lemma prefill_policy_witness :
  exists (lp lp' : Launch_params) (mem : Memory) (before after : list Event),
    new_events (Sample.world 8) (snd Sample.run)
    = before ++ EvKernel true lp mem :: after
             ++ [EvKernel false lp' (snd (Sample.kernel lp true mem))]
    /\ List.filter is_driver_or_rng before = []
    /\ List.filter is_prefill after = []
    /\ (if true
        then True
        else List.filter is_prefill (new_events (Sample.world 8) (snd Sample.run)) = [])
    /\ let c := if true then zero_contents else Uninitialized in
       let c_lse := if true then Filled neg_infinity else Uninitialized in
       contents_of mem (Params.softmax_lse_ptr (Launch.params lp)) = Some c_lse
       /\ contents_of mem (Params.o_ptr (Launch.params lp)) = Some c
       /\ contents_of mem (Params.o2_ptr (Launch.params lp)) = Some c
       /\ contents_of mem (Params.o_tmp_ptr (Launch.params lp))
          = (if loop Sample.qkv 300 then Some c else None)
       /\ contents_of mem (Params.o2_tmp_ptr (Launch.params lp))
          = (if loop Sample.qkv 300 then Some c else None)
       /\ contents_of mem (Params.s_ptr (Launch.params lp))
          = (if true then Some c else None).
Proof.
  apply (prefill_policy Sample.get_size_in_bytes Sample.set_alpha Sample.kernel
           Sample.philox Sample.qkv Sample.offsets Sample.f_half 300 Sample.f_half
           true false true None (Sample.world 8) (snd Sample.run) Sample.run_result).
  vm_compute. reflexivity.
Defined.

Lemma counter_reservation_witness :
  exists (lp lp' : Launch_params) (mem mem' : Memory),
    let n := Launch.elts_per_thread (fst (Sample.kernel lp true mem)) in
    let r := Sample.philox (generators (Sample.world 8) (gen None)) n in
    List.filter is_driver_or_rng (new_events (Sample.world 8) (snd Sample.run))
    = EvKernel true lp mem
      :: (if dropout_enabled Sample.f_half
          then [EvLock (gen None); EvPhilox (gen None) n; EvUnlock (gen None)]
          else [])
      ++ [EvKernel false lp' mem']
    /\ generators (snd Sample.run)
       = (if dropout_enabled Sample.f_half
          then <[gen None := snd r]> (generators (Sample.world 8))
          else generators (Sample.world 8))
    /\ Params.philox_args (Launch.params lp')
       = (if dropout_enabled Sample.f_half
          then fst r
          else Params.philox_args (Launch.params (fst (Sample.kernel lp true mem)))).
Proof.
  apply (counter_reservation Sample.get_size_in_bytes Sample.set_alpha Sample.kernel
           Sample.philox Sample.qkv Sample.offsets Sample.f_half 300 Sample.f_half
           true false true None (Sample.world 8) (snd Sample.run) Sample.run_result).
  vm_compute. reflexivity.
Defined.

Lemma no_dropout_ignores_generator_witness :
  generators
    (snd (Sample.fwd Sample.qkv Sample.offsets Sample.f_zero 300 true true
            (Sample.world 8)))
  = generators (Sample.world 8).
Proof.
  apply (no_dropout_ignores_generator Sample.get_size_in_bytes Sample.set_alpha
           Sample.kernel Sample.philox Sample.qkv Sample.offsets Sample.f_zero 300
           Sample.f_half true false true None (Sample.world 8)).
  reflexivity.
Defined.

Lemma thresholds_round_down_witness :
  exists prm,
    set_params Sample.get_size_in_bytes Sample.set_alpha 2 128 1 16
      (Some 0%nat) (Some 1%nat) (Some 3%nat) None None None (Some 5%nat) None
      Sample.f_half Sample.f_half false None (Some 4%nat) = inr prm
    /\ Params.p_dropout prm = float_sub (float_of_Z 1) Sample.f_half
    /\ Params.p_dropout_in_uint prm
       = Qfloor (to_Q (Params.p_dropout prm) * inject_Z (2 ^ 32 - 1))
    /\ Params.p_dropout_in_uint16_t prm
       = Qfloor (to_Q (Params.p_dropout prm) * inject_Z (2 ^ 16 - 1)).
Proof.
  apply (thresholds_round_down Sample.get_size_in_bytes Sample.set_alpha 2 128 1 16
           (Some 0%nat) (Some 1%nat) (Some 3%nat) None None None (Some 5%nat) None
           Sample.f_half Sample.f_half false None (Some 4%nat));
    vm_compute; reflexivity.
Defined.

(** C4 as stated fails: at [p_dropout = 0.5], inside [[0, 1)], the stored
    thresholds are [2147483647] and [32767], while
    [floor ((1 - 0.5) * 2^32) = 2147483648] and
    [floor ((1 - 0.5) * 2^16) = 32768]. *)
Lemma thresholds_below_power_of_two :
  is_float Sample.f_half
  /\ SFleb (float_of_Z 0) Sample.f_half = true
  /\ float_ltb Sample.f_half (float_of_Z 1) = true
  /\ (exists prm,
        set_params Sample.get_size_in_bytes Sample.set_alpha 2 128 1 16
          (Some 0%nat) (Some 1%nat) (Some 3%nat) None None None (Some 5%nat) None
          Sample.f_half Sample.f_half false None (Some 4%nat) = inr prm
        /\ Params.p_dropout_in_uint prm = 2147483647
        /\ Params.p_dropout_in_uint prm
           <> Qfloor ((1 - to_Q Sample.f_half) * inject_Z (2 ^ 32))
        /\ Params.p_dropout_in_uint16_t prm = 32767
        /\ Params.p_dropout_in_uint16_t prm
           <> Qfloor ((1 - to_Q Sample.f_half) * inject_Z (2 ^ 16)))
  /\ Qfloor ((1 - to_Q Sample.f_half) * inject_Z (2 ^ 32)) = 2147483648
  /\ Qfloor ((1 - to_Q Sample.f_half) * inject_Z (2 ^ 16)) = 32768.
Proof.
  split; [vm_compute; reflexivity|]. split; [vm_compute; reflexivity|].
  split; [vm_compute; reflexivity|]. split.
  - eexists. split; [vm_compute; reflexivity|].
    split; [vm_compute; reflexivity|]. split; [vm_compute; discriminate|].
    split; [vm_compute; reflexivity|]. vm_compute. discriminate.
  - split; vm_compute; reflexivity.
Qed.

(** * Further properties of the code *)

(** ** Planner *)

(** X1: as long as [max_seq_len + base_N] is an [int], the working
    length covers the request, is at least 128 and a multiple of 128;
    above 256 it is a multiple of the tile width and exceeds the request
    by less than one tile.  A request of zero or less is planned as 128. *)
Theorem padded_length_covers (max_seq_len head_size : Z) :
  max_seq_len + Planner.base_N head_size <= INT_MAX ->
  let n := Planner.seq_len max_seq_len (Planner.base_N head_size) in
  128 <= n /\ max_seq_len <= n /\ n mod 128 = 0
  /\ (max_seq_len <= 0 -> n = 128)
  /\ (256 < max_seq_len ->
      n mod Planner.base_N head_size = 0
      /\ n < max_seq_len + Planner.base_N head_size).
Proof.
  intros Hmax. cbv zeta. unfold Planner.seq_len.
  pose proof (base_N_cases head_size) as Hb.
  destruct (max_seq_len <=? 128) eqn:H1; [apply Z.leb_le in H1|apply Z.leb_gt in H1].
  { repeat split; try lia; reflexivity. }
  destruct (max_seq_len <=? 256) eqn:H2; [apply Z.leb_le in H2|apply Z.leb_gt in H2].
  { repeat split; try lia; reflexivity. }
  rewrite round_up_exact by assumption.
  destruct Hb as [-> | ->]; repeat split; try lia;
    Z.div_mod_to_equations; lia.
Qed.

Lemma padded_length_covers_witness :
  let n := Planner.seq_len 300 (Planner.base_N 64) in
  128 <= n /\ 300 <= n /\ n mod 128 = 0
  /\ (300 <= 0 -> n = 128)
  /\ (256 < 300 -> n mod Planner.base_N 64 = 0 /\ n < 300 + Planner.base_N 64).
Proof.
  apply (padded_length_covers 300 64). vm_compute. discriminate.
Defined.

(** X2: under the same bound the planner loops exactly when the request
    exceeds the tile width. *)
Theorem loop_criterion (max_seq_len head_size : Z) :
  max_seq_len + Planner.base_N head_size <= INT_MAX ->
  Planner.loop (Planner.seq_len max_seq_len (Planner.base_N head_size))
               (Planner.base_N head_size)
  = (Planner.base_N head_size <? max_seq_len).
Proof.
  intros Hmax. unfold Planner.loop, Planner.seq_len.
  pose proof (base_N_cases head_size) as Hb.
  destruct (max_seq_len <=? 128) eqn:H1; [apply Z.leb_le in H1|apply Z.leb_gt in H1].
  { destruct Hb as [-> | ->]; symmetry; cbn; apply Z.ltb_ge; lia. }
  destruct (max_seq_len <=? 256) eqn:H2; [apply Z.leb_le in H2|apply Z.leb_gt in H2].
  { destruct Hb as [-> | ->]; cbn; symmetry; [apply Z.ltb_lt|apply Z.ltb_ge]; lia. }
  rewrite round_up_exact by assumption.
  transitivity true; [|symmetry; apply Z.ltb_lt; destruct Hb; lia].
  apply Z.ltb_lt. destruct Hb as [-> | ->]; Z.div_mod_to_equations; lia.
Qed.

Lemma loop_criterion_witness :
  Planner.loop (Planner.seq_len 200 (Planner.base_N 128)) (Planner.base_N 128)
  = (Planner.base_N 128 <? 200).
Proof.
  apply (loop_criterion 200 128). vm_compute. discriminate.
Defined.

(** ** Keep probability and thresholds *)

Lemma dyadic_fraction (a e : Z) :
  e <= 0 ->
  (inject_Z a * Qpower 2 e == inject_Z a / inject_Z (2 ^ (- e)))%Q.
Proof.
  intros He. pose proof (pow2_pos (- e) ltac:(lia)) as Hp.
  replace e with (- - e) at 1 by lia.
  rewrite Qpower_opp, <- (Zpower_Qpower 2 (- e)) by lia.
  reflexivity.
Qed.

Lemma fraction_bounds (a b : Z) :
  0 < a -> a <= b ->
  (0 < inject_Z a / inject_Z b)%Q /\ (inject_Z a / inject_Z b <= 1)%Q.
Proof.
  intros Ha Hab. destruct b as [|b|b]; try lia. destruct a as [|a|a]; try lia.
  unfold Qlt, Qle, Qdiv, Qmult, Qinv, inject_Z. cbn. lia.
Qed.

(** X3: for a dropout probability in [[0, 1)] the keep probability that
    [set_params] stores is a finite binary32 value in [(0, 1]]: it is
    never zero, so the rescale factor [1.f / keep] never divides by
    zero. *)
Theorem keep_probability_in_unit_interval (p_dropout : spec_float) :
  is_float p_dropout ->
  SFleb (float_of_Z 0) p_dropout = true ->
  float_ltb p_dropout (float_of_Z 1) = true ->
  let keep := keep_probability p_dropout in
  is_float keep /\ (0 < to_Q keep)%Q /\ (to_Q keep <= 1)%Q.
Proof.
  intros Hfl Hge Hlt. cbv zeta.
  destruct (keep_probability_range p_dropout Hfl Hge Hlt)
    as (mk & ek & -> & Hb & Hek & Hmk).
  split; [exact Hb|].
  cbn [to_Q cond_Zopp]. rewrite dyadic_fraction by exact Hek.
  apply fraction_bounds; lia.
Qed.

Lemma keep_probability_in_unit_interval_witness :
  let keep := keep_probability Edge.f_three_quarters in
  is_float keep /\ (0 < to_Q keep)%Q /\ (to_Q keep <= 1)%Q.
Proof.
  apply (keep_probability_in_unit_interval Edge.f_three_quarters);
    vm_compute; reflexivity.
Defined.

Lemma threshold_uint_floor (mk : positive) (ek : Z) :
  bounded 24 128 mk ek = true -> ek <= 0 -> Zpos mk <= 2 ^ (- ek) ->
  threshold_uint (S754_finite false mk ek)
  = Qfloor (to_Q (S754_finite false mk ek) * inject_Z 4294967295).
Proof.
  intros Hb Hek Hmk. cbn [to_Q cond_Zopp].
  rewrite Qfloor_dyadic by exact Hek. now apply threshold_uint_value.
Qed.

Lemma threshold_uint16_t_floor (mk : positive) (ek : Z) :
  bounded 24 128 mk ek = true -> ek <= 0 -> Zpos mk <= 2 ^ (- ek) ->
  threshold_uint16_t (S754_finite false mk ek)
  = Qfloor (to_Q (S754_finite false mk ek) * inject_Z 65535).
Proof.
  intros Hb Hek Hmk. cbn [to_Q cond_Zopp].
  rewrite Qfloor_dyadic by exact Hek. now apply threshold_uint16_t_value.
Qed.

(** X4: the thresholds grow with the keep probability: of two dropout
    probabilities in [[0, 1)], the one that keeps at least as much gets
    thresholds at least as large, for the 32-bit and for the 16-bit
    draw. *)
Theorem thresholds_monotone (p1 p2 : spec_float) :
  is_float p1 -> SFleb (float_of_Z 0) p1 = true -> float_ltb p1 (float_of_Z 1) = true ->
  is_float p2 -> SFleb (float_of_Z 0) p2 = true -> float_ltb p2 (float_of_Z 1) = true ->
  (to_Q (keep_probability p1) <= to_Q (keep_probability p2))%Q ->
  threshold_uint (keep_probability p1) <= threshold_uint (keep_probability p2)
  /\ threshold_uint16_t (keep_probability p1)
     <= threshold_uint16_t (keep_probability p2).
Proof.
  intros Hf1 Hg1 Hl1 Hf2 Hg2 Hl2.
  destruct (keep_probability_range p1 Hf1 Hg1 Hl1) as (m1 & e1 & -> & Hb1 & He1 & Hm1).
  destruct (keep_probability_range p2 Hf2 Hg2 Hl2) as (m2 & e2 & -> & Hb2 & He2 & Hm2).
  intros Hle.
  rewrite !threshold_uint_floor, !threshold_uint16_t_floor by assumption.
  split; apply Qfloor_resp_le; apply Qmult_le_compat_r; try exact Hle;
    unfold Qle, inject_Z; cbn; lia.
Qed.

Lemma thresholds_monotone_witness :
  threshold_uint (keep_probability Edge.f_three_quarters)
  <= threshold_uint (keep_probability Sample.f_half)
  /\ threshold_uint16_t (keep_probability Edge.f_three_quarters)
     <= threshold_uint16_t (keep_probability Sample.f_half).
Proof.
  apply (thresholds_monotone Edge.f_three_quarters Sample.f_half);
    vm_compute; solve [reflexivity | discriminate].
Defined.

Lemma inject_Z_nonzero (z : Z) : 0 < z -> ~ (inject_Z z == 0)%Q.
Proof.
  intros Hz H. unfold Qeq, inject_Z in H. cbn in H. lia.
Qed.

Lemma float_lt_one_inv (m : positive) (e : Z) :
  SFltb (S754_finite false m e) (S754_finite false 8388608 (-23)) = true ->
  e < -23 \/ (e = -23 /\ Zpos m < 8388608).
Proof.
  unfold SFltb, SFcompare. intros Hlt.
  destruct (e ?= -23) eqn:E; try discriminate.
  - right. split; [now apply Z.compare_eq|].
    destruct (PosDef.Pos.compare_cont Eq m 8388608) eqn:C; try discriminate.
    exact C.
  - left. exact (proj1 (Z.compare_lt_iff e (-23)) E).
Qed.

(** X5: from one half upwards the subtraction is exact: for a
    single-precision [p_dropout] in [[0.5, 1)] the stored keep
    probability is the real number [1 - p_dropout]. *)
Theorem keep_probability_exact (p_dropout : spec_float) :
  is_float p_dropout ->
  SFleb float_half p_dropout = true ->
  float_ltb p_dropout (float_of_Z 1) = true ->
  (to_Q (keep_probability p_dropout) == 1 - to_Q p_dropout)%Q.
Proof.
  unfold is_float, keep_probability, float_sub, float_ltb, float_half.
  rewrite float_one. intros Hv Hge Hlt.
  destruct p_dropout as [sp|sp| |sp m e];
    try (destruct sp; (discriminate Hge || discriminate Hlt)); try discriminate Hge.
  destruct sp; [discriminate Hge|].
  cbn in Hv. apply bounded_inv in Hv as [Hc He].
  pose proof (digits2_pos_bounds m) as [Dlo Dhi].
  assert (He2 : -24 <= e).
  { unfold SFleb, SFcompare in Hge.
    destruct (Z.compare_spec (-24) e); try discriminate; lia. }
  assert (E24 : e = -24).
  { destruct (float_lt_one_inv m e Hlt) as [?|[E C]]; [lia|exfalso].
    assert (D24 : Zpos (digits2_pos m) = 24) by (unfold fexp, emin in Hc; lia).
    rewrite D24 in Dlo. change (2 ^ (24 - 1)) with 8388608 in Dlo. lia. }
  subst e. clear Hlt He2.
  assert (D24 : Zpos (digits2_pos m) = 24) by (unfold fexp, emin in Hc; lia).
  rewrite D24 in Dlo, Dhi.
  change (2 ^ (24 - 1)) with 8388608 in Dlo. change (2 ^ 24) with 16777216 in Dhi.
  unfold SFsub. cbv zeta. change (Z.min (-23) (-24)) with (-24).
  destruct (shl_align_down 8388608 (-23) (-24) ltac:(lia)) as (m1 & -> & Hm1).
  rewrite shl_align_same. cbn [fst cond_Zopp].
  change (Zpos 8388608 * 2 ^ (-23 - -24)) with 16777216 in Hm1.
  destruct (Zpos m1 - Zpos m) as [|M|M] eqn:HM; try lia.
  cbn [binary_normalize].
  pose proof (digits2_pos_bounds M) as [Mlo Mhi].
  remember (Zpos (digits2_pos M)) as dM eqn:EdM.
  assert (HdM1 : 1 <= dM) by lia.
  assert (HdM : dM <= 24).
  { destruct (Z.le_gt_cases dM 24) as [?|Hgt]; [assumption|exfalso].
    assert (2 ^ 24 <= 2 ^ (dM - 1)) by (apply Z.pow_le_mono_r; lia).
    change (2 ^ 24) with 16777216 in *. lia. }
  destruct (binary_round_pads 24 128 ltac:(lia) false M (-24)) as (m' & -> & Hv & _);
    rewrite <- ?EdM; try (unfold emin; lia).
  rewrite <- EdM in Hv.
  cbn [to_Q cond_Zopp].
  rewrite !dyadic_fraction by lia.
  replace (- (-24 - (24 - dM))) with (24 + (24 - dM)) by lia.
  rewrite pow2_split by lia. rewrite Hv.
  pose proof (pow2_pos (24 - dM) ltac:(lia)) as HT.
  change (2 ^ (- -24)) with (2 ^ 24).
  assert (HC : 0 < 2 ^ 24) by (apply pow2_pos; lia).
  assert (HMC : Zpos M = 2 ^ 24 - Zpos m) by (change (2 ^ 24) with 16777216; lia).
  rewrite HMC. clear - HC HT.
  generalize dependent (2 ^ (24 - dM)). generalize dependent (2 ^ 24).
  intros C HC T HT.
  rewrite !inject_Z_mult. unfold Zminus. rewrite inject_Z_plus, inject_Z_opp.
  field. split; apply inject_Z_nonzero; assumption.
Qed.

Lemma keep_probability_exact_witness :
  (to_Q (keep_probability Edge.f_three_quarters) == 1 - to_Q Edge.f_three_quarters)%Q.
Proof.
  apply (keep_probability_exact Edge.f_three_quarters); vm_compute; reflexivity.
Defined.

(** ** The dropout flag *)

(** The comparison [p_dropout > 0.0] is made in double precision; it
    agrees with the comparison in single precision. *)
Lemma dropout_enabled_float (p : spec_float) :
  is_float p -> dropout_enabled p = float_ltb (float_of_Z 0) p.
Proof.
  unfold is_float, dropout_enabled, double_ltb, float_ltb.
  change (double_of_Z 0) with (S754_zero false).
  change (float_of_Z 0) with (S754_zero false).
  destruct p as [sp|sp| |sp m e]; intros Hv; try reflexivity.
  cbn in Hv. destruct (float_to_double_finite sp m e Hv) as (m3 & -> & _).
  reflexivity.
Qed.

Lemma nonpositive_dropout (p : spec_float) :
  is_float p -> SFleb p (float_of_Z 0) = true ->
  dropout_enabled p = false /\ float_ltb p (float_of_Z 1) = true.
Proof.
  intros Hv Hle. rewrite (dropout_enabled_float p Hv).
  unfold float_ltb. rewrite float_one.
  revert Hle. change (float_of_Z 0) with (S754_zero false).
  destruct p as [sp|sp| |sp m e]; try destruct sp; intros H;
    try (split; reflexivity);
    exfalso; unfold SFleb, SFcompare in H; discriminate H.
Qed.

(** ** Validation in the forward entry point *)

Lemma head_size_ok_spec (h : Z) :
  head_size_ok h = true <-> Planner.supported_head_size h.
Proof.
  unfold head_size_ok, Planner.supported_head_size.
  rewrite !orb_true_iff, !Z.eqb_eq. tauto.
Qed.

Lemma head_size_ok_false (h : Z) :
  head_size_ok h = false <-> ~ Planner.supported_head_size h.
Proof.
  rewrite <- head_size_ok_spec. destruct (head_size_ok h); split; congruence.
Qed.

Section ForwardValidation.

Context (get_size_in_bytes : Z -> Data_type -> Z).
Context (set_alpha : spec_float -> Data_type -> Z).
Context (fmha_kernel : Launch_params -> bool -> Memory -> Launch_params * Memory).
Context (philox_cuda_state_impl :
           CUDAGeneratorImpl -> Z -> PhiloxCudaState * CUDAGeneratorImpl).

Context (qkvv cu_seqlens : Tensor) (p_dropout : spec_float) (max_seq_len : Z)
        (softmax_scale : spec_float) (zero_tensors is_causal return_softmax : bool)
        (gen_ : option Generator).

Local Abbreviation fwd :=
  (mha_fwd get_size_in_bytes set_alpha fmha_kernel philox_cuda_state_impl
     qkvv cu_seqlens p_dropout max_seq_len softmax_scale
     zero_tensors is_causal return_softmax gen_).
Local Abbreviation checks_ := (checks qkvv cu_seqlens p_dropout).
Local Abbreviation early_checks_ := (early_checks qkvv cu_seqlens p_dropout).

Ltac check_cases :=
  unfold checks; cbn [first_failure];
  repeat match goal with
         | |- context [first_failure ((?c, _) :: _)] =>
             destruct c eqn:?; cbn [first_failure]
         | |- context [if ?c then _ else _] => destruct c eqn:?
         end.

Ltac check_props :=
  repeat match goal with
         | H : (_ && _) = true |- _ => apply andb_true_iff in H; destruct H
         | H : (_ && _) = false |- _ => apply andb_false_iff in H; destruct H
         | H : (_ =? _) = true |- _ => apply Z.eqb_eq in H
         | H : (_ =? _) = false |- _ => apply Z.eqb_neq in H
         | H : (_ <=? _) = true |- _ => apply Z.leb_le in H
         | H : (_ <=? _) = false |- _ => apply Z.leb_gt in H
         | H : (_ <? _) = true |- _ => apply Z.ltb_lt in H
         | H : (_ <? _) = false |- _ => apply Z.ltb_ge in H
         | H : head_size_ok _ = true |- _ => apply head_size_ok_spec in H
         | H : head_size_ok _ = false |- _ => apply head_size_ok_false in H
         end.

Ltac check_iff :=
  check_cases; check_props;
  unfold passes_tensor_checks, device_ok, batch_size, head_size in *;
  (split;
   [ let Hg := fresh "Hg" in
     intros Hg; try discriminate Hg;
     repeat split; solve [assumption | lia | congruence | eauto]
   | let Hg := fresh "Hg" in
     intros Hg;
     repeat match goal with
            | H : _ /\ _ |- _ => destruct H
            | H : exists _, _ |- _ => destruct H
            end;
     try reflexivity; try (eexists; reflexivity);
     exfalso; solve [lia | congruence | tauto] ]).

(** X6: the placement and layout checks are made in source order, each
    reported only when all earlier ones pass: QKV on the device, offsets
    on the device, QKV contiguous, offsets contiguous, offsets of rank 1,
    QKV of rank 4. *)
Theorem tensor_checks_in_order (w : World) :
  (fst (fwd w) = inl QkvNotOnDevice <-> device_ok w /\ is_cuda qkvv = false)
  /\ (fst (fwd w) = inl CuSeqlensNotOnDevice
      <-> device_ok w /\ is_cuda qkvv = true /\ is_cuda cu_seqlens = false)
  /\ (fst (fwd w) = inl QkvNotContiguous
      <-> device_ok w /\ is_cuda qkvv = true /\ is_cuda cu_seqlens = true
          /\ is_contiguous qkvv = false)
  /\ (fst (fwd w) = inl CuSeqlensNotContiguous
      <-> device_ok w /\ is_cuda qkvv = true /\ is_cuda cu_seqlens = true
          /\ is_contiguous qkvv = true /\ is_contiguous cu_seqlens = false)
  /\ (fst (fwd w) = inl CuSeqlensBadRank
      <-> device_ok w /\ is_cuda qkvv = true /\ is_cuda cu_seqlens = true
          /\ is_contiguous qkvv = true /\ is_contiguous cu_seqlens = true
          /\ dim cu_seqlens <> 1)
  /\ (fst (fwd w) = inl QkvBadRank
      <-> device_ok w /\ is_cuda qkvv = true /\ is_cuda cu_seqlens = true
          /\ is_contiguous qkvv = true /\ is_contiguous cu_seqlens = true
          /\ dim cu_seqlens = 1 /\ dim qkvv <> 4).
Proof.
  rewrite fwd_outcome.
  do 5 (split; [check_iff|]). check_iff.
Qed.

Lemma checks_pass_all (w : World) :
  first_failure (checks_ w) = None <->
  passes_tensor_checks qkvv cu_seqlens w /\ size_at qkvv THREE_DIM = 4
  /\ 0 < batch_size cu_seqlens /\ Planner.supported_head_size (head_size qkvv)
  /\ float_ltb p_dropout (float_of_Z 1) = true.
Proof. check_iff. Qed.

Lemma checks_split (w : World) :
  first_failure (checks_ w)
  = match first_failure (early_checks_ w) with
    | Some e => Some e
    | None => if float_ltb p_dropout (float_of_Z 1)
              then None else Some InvalidDropoutProbability
    end.
Proof.
  change (checks_ w)
    with (early_checks_ w
          ++ [(float_ltb p_dropout (float_of_Z 1), InvalidDropoutProbability)]).
  apply first_failure_app.
Qed.

(** A failure other than the one of [set_params] comes from the checks
    of [mha_fwd] itself. *)
Lemma rejected_early (w : World) (e : Error) :
  fst (fwd w) = inl e -> e <> InvalidDropoutProbability ->
  first_failure (early_checks_ w) = Some e.
Proof.
  rewrite fwd_outcome, checks_split.
  destruct (first_failure (early_checks_ w)) as [e'|]; [congruence|].
  destruct (float_ltb p_dropout (float_of_Z 1)); congruence.
Qed.

Lemma rejected_late (w : World) :
  fst (fwd w) = inl InvalidDropoutProbability ->
  first_failure (early_checks_ w) = None
  /\ float_ltb p_dropout (float_of_Z 1) = false.
Proof.
  rewrite fwd_outcome, checks_split.
  unfold early_checks, checks. cbn [take first_failure].
  repeat match goal with
         | |- context [if ?c then _ else _] => destruct c eqn:?
         end; intros [=]; auto.
Qed.

(** X7: the head dimension is validated last among the checks of
    [mha_fwd] itself, on the [int] value of the fourth extent: the call
    fails with [UnsupportedHeadDim] exactly when everything before it
    passes and that value is none of 16, 32, 64, 128; nothing has then
    been allocated or logged. *)
Theorem head_size_validation (w : World) :
  (fst (fwd w) = inl UnsupportedHeadDim
   <-> passes_tensor_checks qkvv cu_seqlens w /\ size_at qkvv THREE_DIM = 4
       /\ 0 < batch_size cu_seqlens
       /\ ~ Planner.supported_head_size (head_size qkvv))
  /\ (fst (fwd w) = inl UnsupportedHeadDim -> snd (fwd w) = w).
Proof.
  split.
  - rewrite fwd_outcome. check_iff.
  - intros H. apply rejected_early in H; [|discriminate].
    now rewrite (fwd_early_failure _ _ _ _ _ _ _ _ _ _ _ _ _ w _ H).
Qed.


(** X9: a call rejected by one of the checks of [mha_fwd] itself leaves
    the world as it found it: no buffer allocated, nothing logged, no
    generator advanced. *)
Theorem rejection_leaves_world (w : World) (e : Error) :
  fst (fwd w) = inl e -> e <> InvalidDropoutProbability -> snd (fwd w) = w.
Proof.
  intros H Hne. apply rejected_early in H; [|exact Hne].
  now rewrite (fwd_early_failure _ _ _ _ _ _ _ _ _ _ _ _ _ w _ H).
Qed.


(** *** Calls that return *)

Local Abbreviation lp_configure_ :=
  (lp_configure get_size_in_bytes set_alpha
     qkvv cu_seqlens p_dropout max_seq_len softmax_scale is_causal return_softmax).
Local Abbreviation memory_prepared_ :=
  (memory_prepared qkvv cu_seqlens max_seq_len zero_tensors return_softmax).
Local Abbreviation rng_events_ :=
  (rng_events get_size_in_bytes set_alpha fmha_kernel
     qkvv cu_seqlens p_dropout max_seq_len softmax_scale
     zero_tensors is_causal return_softmax gen_).

Lemma success_checks (w w' : World) (res : list Tensor) :
  fwd w = (inr res, w') ->
  passes_tensor_checks qkvv cu_seqlens w /\ size_at qkvv THREE_DIM = 4
  /\ 0 < batch_size cu_seqlens /\ Planner.supported_head_size (head_size qkvv)
  /\ float_ltb p_dropout (float_of_Z 1) = true.
Proof.
  intros H. apply checks_pass_all.
  pose proof (fwd_outcome get_size_in_bytes set_alpha fmha_kernel
                philox_cuda_state_impl qkvv cu_seqlens p_dropout max_seq_len
                softmax_scale zero_tensors is_causal return_softmax gen_ w) as Ho.
  rewrite H in Ho. cbn [fst] in Ho.
  destruct (first_failure (checks_ w)); [discriminate Ho|reflexivity].
Qed.

Lemma driver_events (w : World) :
  List.filter is_driver_or_rng
    (alloc_events qkvv cu_seqlens max_seq_len return_softmax w
     ++ prefill_events qkvv max_seq_len zero_tensors return_softmax w
     ++ [EvKernel true (lp_configure_ w) (memory_prepared_ w)]
     ++ rng_events_ w
     ++ [EvKernel false
           (lp_launch get_size_in_bytes set_alpha fmha_kernel philox_cuda_state_impl
              qkvv cu_seqlens p_dropout max_seq_len softmax_scale
              zero_tensors is_causal return_softmax gen_ w)
           (snd (configured get_size_in_bytes set_alpha fmha_kernel
                   qkvv cu_seqlens p_dropout max_seq_len softmax_scale
                   zero_tensors is_causal return_softmax w))])
  = EvKernel true (lp_configure_ w) (memory_prepared_ w)
    :: rng_events_ w
    ++ [EvKernel false
          (lp_launch get_size_in_bytes set_alpha fmha_kernel philox_cuda_state_impl
             qkvv cu_seqlens p_dropout max_seq_len softmax_scale
             zero_tensors is_causal return_softmax gen_ w)
          (snd (configured get_size_in_bytes set_alpha fmha_kernel
                  qkvv cu_seqlens p_dropout max_seq_len softmax_scale
                  zero_tensors is_causal return_softmax w))].
Proof.
  unfold alloc_events, prefill_events, rng_events.
  destruct (loop qkvv max_seq_len), return_softmax, zero_tensors,
    (dropout_enabled p_dropout); reflexivity.
Qed.

Lemma to_size_t_id (x : Z) : 0 <= x <= INT_MAX -> to_size_t x = x.
Proof.
  unfold INT_MAX, to_size_t, wrap_unsigned. intros Hx.
  apply Z.mod_small. change (2 ^ 64) with 18446744073709551616. lia.
Qed.

(** X11: what the driver is given.  On a call that returns, the first
    driver call is the configure call; its launch parameters carry the
    current device and stream, the dropout flag [p_dropout > 0] and the
    diagnostics flag, and its kernel parameters name the two input
    buffers, leave both gradient addresses ([do_ptr], [dsoftmax_sum])
    null, and hold [batch_size], the head dimension, the number of heads
    and the working length as sizes, the caller's softmax scale and
    causal flag. *)
Theorem driver_arguments (w w' : World) (res : list Tensor) :
  fwd w = (inr res, w') ->
  exists (lp : Launch_params) (mem : Memory) (ev : list Event),
    List.filter is_driver_or_rng (new_events w w') = EvKernel true lp mem :: ev
    /\ Launch.props lp = device w /\ Launch.stream lp = stream w
    /\ Launch.is_dropout lp = dropout_enabled p_dropout
    /\ Launch.return_softmax lp = return_softmax
    /\ Params.qkv_ptr (Launch.params lp) = Some (data_ptr qkvv)
    /\ Params.cu_seqlens_ptr (Launch.params lp) = Some (data_ptr cu_seqlens)
    /\ Params.do_ptr (Launch.params lp) = None
    /\ Params.dsoftmax_sum (Launch.params lp) = None
    /\ Params.b (Launch.params lp) = batch_size cu_seqlens
    /\ Params.d (Launch.params lp) = head_size qkvv
    /\ Params.h (Launch.params lp) = to_size_t (num_heads qkvv)
    /\ Params.s (Launch.params lp) = to_size_t (seq_len qkvv max_seq_len)
    /\ Params.scale_bmm1f (Launch.params lp) = softmax_scale
    /\ Params.is_causal (Launch.params lp) = is_causal.
Proof.
  intros H. pose proof (success_checks w w' res H) as (_ & _ & Hb & Hh & Hp).
  apply fwd_success_inv in H as (-> & -> & _).
  exists (lp_configure_ w), (memory_prepared_ w). eexists.
  rewrite new_events_final, driver_events. split; [reflexivity|].
  unfold lp_configure, params_set, params_result, set_params. rewrite Hp.
  cbn [set_launch_params new_Launch_params Launch.props Launch.stream
       Launch.is_dropout Launch.return_softmax Launch.params
       Params.qkv_ptr Params.cu_seqlens_ptr Params.do_ptr Params.dsoftmax_sum
       Params.b Params.d Params.h Params.s Params.scale_bmm1f Params.is_causal].
  repeat split; try reflexivity.
  - apply to_size_t_id. pose proof (to_int_range (numel cu_seqlens - 1)) as Hr.
    unfold batch_size, is_int in *. lia.
  - apply to_size_t_id. unfold INT_MAX.
    destruct Hh as [-> | [-> | [-> | ->]]]; lia.
Qed.

(** X12: element types.  The two contexts and the diagnostic matrix take
    the element type of QKV, whatever it is; the log-sum-exp tensor and
    the two scratch accumulators are single precision.  Every returned
    tensor is contiguous and on the device. *)
Theorem output_element_types (w w' : World) (res : list Tensor) :
  fwd w = (inr res, w') ->
  let dt := opt_dtype (options qkvv) in
  omap alloc_dtype (new_events w w')
  = [dt; dt] ++ (if loop qkvv max_seq_len then [kFloat; kFloat] else [])
    ++ [kFloat] ++ (if return_softmax then [dt] else [])
  /\ map (fun t => opt_dtype (options t)) res
     = [dt; dt; kFloat] ++ (if return_softmax then [dt] else [])
  /\ Forall (fun t => is_cuda t = true /\ is_contiguous t = true) res.
Proof.
  intros H. pose proof (success_checks w w' res H) as ((_ & Hc & _) & _).
  apply fwd_success_inv in H as (-> & -> & _). cbv zeta.
  rewrite new_events_final.
  unfold alloc_events, prefill_events, rng_events, result, tensor, opts_float, opts,
    is_cuda in *.
  destruct (loop qkvv max_seq_len), return_softmax, zero_tensors,
    (dropout_enabled p_dropout);
    (split; [reflexivity|]); (split; [reflexivity|]);
    repeat constructor; cbn; assumption.
Qed.


(** X14: a probability of zero or less, negative values and negative
    infinity included, is not rejected: the call is never refused for
    its probability, runs without dropout, takes no generator's mutex
    and leaves every generator as it was. *)
Theorem nonpositive_dropout_runs_without_sampling (w : World) :
  is_float p_dropout -> SFleb p_dropout (float_of_Z 0) = true ->
  fst (fwd w) <> inl InvalidDropoutProbability
  /\ generators (snd (fwd w)) = generators w
  /\ List.filter is_rng (new_events w (snd (fwd w))) = [].
Proof.
  intros Hv Hle. destruct (nonpositive_dropout p_dropout Hv Hle) as [Hd Hp].
  split.
  - intros H. apply rejected_late in H as [_ H]. congruence.
  - destruct (first_failure (early_checks_ w)) as [e|] eqn:He.
    + rewrite (fwd_early_failure _ _ _ _ _ _ _ _ _ _ _ _ _ w e He). cbn [snd].
      split; [reflexivity|]. unfold new_events. now rewrite drop_all.
    + rewrite (fwd_run _ _ _ _ _ _ _ _ _ _ _ _ _ w He), Hp. cbn [snd].
      rewrite new_events_final.
      unfold world_final, alloc_events, prefill_events, rng_events.
      cbn [generators]. rewrite Hd.
      destruct (loop qkvv max_seq_len), return_softmax, zero_tensors;
        split; reflexivity.
Qed.

End ForwardValidation.

(** ** Strides *)

Section Strides.

Context (get_size_in_bytes : Z -> Data_type -> Z).
Context (set_alpha : spec_float -> Data_type -> Z).


End Strides.

(** ** The further properties on concrete calls *)

Lemma rejection_leaves_world_witness :
  snd (Sample.fwd Sample.qkv_three Sample.offsets Sample.f_zero 8 false false
         (Sample.world 8))
  = Sample.world 8.
Proof.
  apply (rejection_leaves_world Sample.get_size_in_bytes Sample.set_alpha Sample.kernel
           Sample.philox Sample.qkv_three Sample.offsets Sample.f_zero 8 Sample.f_half
           false false false None (Sample.world 8) PackedCountMismatch).
  - vm_compute. reflexivity.
  - discriminate.
Defined.


Lemma driver_arguments_witness :
  exists (lp : Launch_params) (mem : Memory) (ev : list Event),
    List.filter is_driver_or_rng (new_events (Sample.world 8) (snd Sample.run))
    = EvKernel true lp mem :: ev
    /\ Launch.props lp = device (Sample.world 8)
    /\ Launch.stream lp = stream (Sample.world 8)
    /\ Launch.is_dropout lp = dropout_enabled Sample.f_half
    /\ Launch.return_softmax lp = true
    /\ Params.qkv_ptr (Launch.params lp) = Some (data_ptr Sample.qkv)
    /\ Params.cu_seqlens_ptr (Launch.params lp) = Some (data_ptr Sample.offsets)
    /\ Params.do_ptr (Launch.params lp) = None
    /\ Params.dsoftmax_sum (Launch.params lp) = None
    /\ Params.b (Launch.params lp) = batch_size Sample.offsets
    /\ Params.d (Launch.params lp) = head_size Sample.qkv
    /\ Params.h (Launch.params lp) = to_size_t (num_heads Sample.qkv)
    /\ Params.s (Launch.params lp) = to_size_t (seq_len Sample.qkv 300)
    /\ Params.scale_bmm1f (Launch.params lp) = Sample.f_half
    /\ Params.is_causal (Launch.params lp) = false.
Proof.
  apply (driver_arguments Sample.get_size_in_bytes Sample.set_alpha Sample.kernel
           Sample.philox Sample.qkv Sample.offsets Sample.f_half 300 Sample.f_half
           true false true None (Sample.world 8) (snd Sample.run) Sample.run_result).
  vm_compute. reflexivity.
Defined.

Lemma output_element_types_witness :
  let dt := opt_dtype (options Edge.qkv_float) in
  omap alloc_dtype
    (new_events (Sample.world 8)
       (snd (Sample.fwd Edge.qkv_float Sample.offsets Sample.f_zero 300 false true
               (Sample.world 8))))
  = [dt; dt] ++ (if loop Edge.qkv_float 300 then [kFloat; kFloat] else [])
    ++ [kFloat] ++ (if true then [dt] else [])
  /\ map (fun t => opt_dtype (options t))
       (result Edge.qkv_float Sample.offsets 300 true (Sample.world 8))
     = [dt; dt; kFloat] ++ (if true then [dt] else [])
  /\ Forall (fun t => is_cuda t = true /\ is_contiguous t = true)
       (result Edge.qkv_float Sample.offsets 300 true (Sample.world 8)).
Proof.
  apply (output_element_types Sample.get_size_in_bytes Sample.set_alpha Sample.kernel
           Sample.philox Edge.qkv_float Sample.offsets Sample.f_zero 300 Sample.f_half
           false false true None (Sample.world 8)
           (snd (Sample.fwd Edge.qkv_float Sample.offsets Sample.f_zero 300 false true
                   (Sample.world 8)))
           (result Edge.qkv_float Sample.offsets 300 true (Sample.world 8))).
  vm_compute. reflexivity.
Defined.


Lemma nonpositive_dropout_runs_without_sampling_witness :
  let r := Sample.fwd Sample.qkv Sample.offsets Edge.f_minus_half 300 true true
             (Sample.world 8) in
  fst r <> inl InvalidDropoutProbability
  /\ generators (snd r) = generators (Sample.world 8)
  /\ List.filter is_rng (new_events (Sample.world 8) (snd r)) = [].
Proof.
  apply (nonpositive_dropout_runs_without_sampling Sample.get_size_in_bytes
           Sample.set_alpha Sample.kernel Sample.philox Sample.qkv Sample.offsets
           Edge.f_minus_half 300 Sample.f_half true false true None (Sample.world 8));
    vm_compute; reflexivity.
Defined.

